(** * Space-debris report: retrieval and derivation pipeline

    A shallow embedding of the two scripts of the repository,
    [debris-track.py] (the strict variant: dictionary subscripts, no
    guards) and [debris-track-2.py] (the tolerant variant: [get] with
    defaults, guarded derivation), and the properties of the orbital
    derivation, the request pacing, the error paths and the report rows.

    Modelling conventions.
    - Python floats are modelled as real numbers ([R]); every operation
      that can raise or leave the real line is written as a function into
      [res].  The integer [0] that the tolerant variant uses as a sentinel
      is the real [0].  Rounding, underflow and overflow are outside this
      reading; the module [Binary64] has the derivation on doubles for
      the inputs where they decide the outcome.
    - A decoded JSON object is a record of optional fields; [None] is an
      absent key.  Numeric fields hold the number that [float(...)] reads
      from the field; the catalogue identifier keeps its text, because the
      scripts splice it into the request path.
    - Effects (HTTP requests, prints, worksheet writes, sleeps) are
      recorded in order in a trace of events.
    - The embedding starts at [with requests.Session() as session:];
      reading the configuration and writing the title and header cells
      come before it and take no part in what follows. *)

From Stdlib Require Floats.
From Stdlib Require Import Reals Lra Psatz.
From Stdlib Require Import String Ascii List ZArith Lia Bool DecimalString.
From Stdlib Require Import Sorted.
Import ListNotations.

Open Scope string_scope.
Open Scope R_scope.

(** ** Exceptions and results *)

Inductive pyexn : Type :=
| ZeroDivisionError
| KeyError (key : string)
| ValueError (msg : string)
| JSONDecodeError
| TypeError (msg : string)
| MyError (msg : string).

(** The result of evaluating an expression: a value, a raised exception,
    or [NonReal]: a float power with a negative base and a fractional
    exponent, for which Python 3 returns a [complex] number.  Complex
    values are not followed further: every later arithmetic step keeps
    them complex. *)
Inductive res (A : Type) : Type :=
| Ok (a : A)
| Raise (e : pyexn)
| NonReal.

Arguments Ok {A} a.
Arguments Raise {A} e.
Arguments NonReal {A}.

Definition res_bind {A B : Type} (r : res A) (k : A -> res B) : res B :=
  match r with
  | Ok a => k a
  | Raise e => Raise e
  | NonReal => NonReal
  end.

Declare Scope res_scope.
Delimit Scope res_scope with res.
Notation "x <- r ;; k" := (res_bind r (fun x => k))
  (at level 61, r at next level, right associativity) : res_scope.

(** ** Float operations *)

(** Truth value of a number in a conditional expression: zero is false. *)
Definition truthy (x : R) : bool :=
  if Req_dec_T x 0 then false else true.

Definition is_integral (y : R) : bool :=
  if Req_dec_T (IZR (Int_part y)) y then true else false.

(** [x ** y] on floats. *)
Definition float_pow (x y : R) : res R :=
  if Req_dec_T y 0 then Ok 1
  else if Req_dec_T x 0 then
    (if Rlt_dec y 0 then Raise ZeroDivisionError else Ok 0)
  else if Rlt_dec x 0 then
    (if is_integral y then Ok (powerRZ x (Int_part y)) else NonReal)
  else Ok (Rpower x y).

(** [x / y] on floats. *)
Definition float_div (x y : R) : res R :=
  if Req_dec_T y 0 then Raise ZeroDivisionError else Ok (x / y).

(** ** Orbital constants *)

Definition GM : R := 398600441800000.0.
Definition GM13 : R := Rpower GM (1 / 3).
Definition MRAD : R := 6378.137.
Definition PI : R := 3.14159265358979.
Definition TPI86 : R := 2.0 * PI / 86400.0.

(** ** The derivation *)

Inductive variant : Type :=
| Strict     (* debris-track.py *)
| Tolerant.  (* debris-track-2.py *)

(** The values computed between the two groups of worksheet writes. *)
Record derived : Type := mkDerived {
  sma : R;
  apo : R;
  per : R;
  smak : R;
  orbT : R;
  orbV : R
}.

(** The value written to column 9, [(apo + per)/2.0]. *)
Definition avg (d : derived) : R := (apo d + per d) / 2.0.

Section Derivation.
Local Open Scope res_scope.

(** [GM13 / ((TPI86 * mmoti) ** (2.0 / 3.0)) / 1000.0] *)
Definition sma_expr (mmoti : R) : res R :=
  p <- float_pow (TPI86 * mmoti) (2.0 / 3.0) ;;
  q <- float_div GM13 p ;;
  float_div q 1000.0.

(** [2.0 * PI * ((smak ** 3.0) / GM) ** 0.5] *)
Definition orbT_expr (smak : R) : res R :=
  c <- float_pow smak 3.0 ;;
  q <- float_div c GM ;;
  r <- float_pow q 0.5 ;;
  Ok (2.0 * PI * r).

(** [(GM / smak) ** 0.5] *)
Definition orbV_expr (smak : R) : res R :=
  q <- float_div GM smak ;;
  float_pow q 0.5.

(** debris-track.py, lines 98-103. *)
Definition derive_strict (mmoti ecc : R) : res derived :=
  sma <- sma_expr mmoti ;;
  let apo := sma * (1.0 + ecc) - MRAD in
  let per := sma * (1.0 - ecc) - MRAD in
  let smak := sma * 1000.0 in
  orbT <- orbT_expr smak ;;
  orbV <- orbV_expr smak ;;
  Ok (mkDerived sma apo per smak orbT orbV).

(** debris-track-2.py, lines 131-136. *)
Definition derive_tolerant (mmoti ecc : R) : res derived :=
  sma <- (if truthy mmoti then sma_expr mmoti else Ok 0) ;;
  let apo := sma * (1.0 + ecc) - MRAD in
  let per := sma * (1.0 - ecc) - MRAD in
  let smak := sma * 1000.0 in
  orbT <- (if truthy sma then orbT_expr smak else Ok 0) ;;
  orbV <- (if truthy sma then orbV_expr smak else Ok 0) ;;
  Ok (mkDerived sma apo per smak orbT orbV).

Definition derive (v : variant) (mmoti ecc : R) : res derived :=
  match v with
  | Strict => derive_strict mmoti ecc
  | Tolerant => derive_tolerant mmoti ecc
  end.

End Derivation.

(** ** Decoded catalogue records *)

(** One JSON object of a response, with the service's field names. *)
Record element : Type := mkElement {
  NORAD_CAT_ID : option string;
  OBJECT_NAME : option string;
  EPOCH : option string;
  REV_AT_EPOCH : option R;
  INCLINATION : option R;
  ECCENTRICITY : option R;
  MEAN_MOTION : option R;
  RA_OF_ASC_NODE : option R;
  ARG_OF_PERICENTER : option R;
  MEAN_ANOMALY : option R
}.

(** [e[key]] *)
Definition subscript {A : Type} (key : string) (field : option A) : res A :=
  match field with
  | Some a => Ok a
  | None => Raise (KeyError key)
  end.

(** [e.get(key, default)] *)
Definition get {A : Type} (field : option A) (default : A) : A :=
  match field with
  | Some a => a
  | None => default
  end.

(** [int(s)] on decimal text: an optional sign and one or more digits.
    Any other text is a [ValueError] in this model. *)
Definition digit_value (c : ascii) : option Z :=
  let n := N_of_ascii c in
  if ((48 <=? n) && (n <=? 57))%N then Some (Z.of_N (n - 48)) else None.

Fixpoint digits_value (acc : Z) (s : string) : option Z :=
  match s with
  | EmptyString => Some acc
  | String c r =>
      match digit_value c with
      | Some d => digits_value (10 * acc + d)%Z r
      | None => None
      end
  end.

Definition signed_digits (sign : Z) (whole body : string) : res Z :=
  match body with
  | EmptyString => Raise (ValueError whole)
  | _ =>
      match digits_value 0 body with
      | Some z => Ok (sign * z)%Z
      | None => Raise (ValueError whole)
      end
  end.

Definition py_int (s : string) : res Z :=
  match s with
  | String "-"%char r => signed_digits (-1) s r
  | String "+"%char r => signed_digits 1 s r
  | _ => signed_digits 1 s s
  end.

(** [str(n)] for an integer. *)
Definition str_int (n : Z) : string := NilZero.string_of_int (Z.to_int n).

(** [sub in s] *)
Definition contains (sub s : string) : bool :=
  match index 0 sub s with
  | Some _ => true
  | None => false
  end.

(** ** The catalogue service and the trace of effects *)

Record credentials : Type := mkCredentials {
  identity : string;
  password : string
}.

Inductive request : Type :=
| POST (url : string) (data : credentials)
| GET (url : string).

(** A response: its status code and the decoding of its text, [None]
    when the text is not a JSON list of objects. *)
Record response : Type := mkResponse {
  status_code : Z;
  text : option (list element)
}.

(** The service answers the [k]-th request of the run. *)
Definition service : Type := nat -> request -> response.

Inductive cell : Type :=
| CellInt (z : Z)
| CellStr (s : string)
| CellNum (x : R).

Inductive num_format : Type :=
| z0_format
| z1_format
| z2_format
| z3_format.

Inductive event : Type :=
| Send (r : request)
| Printed (line : string)
| Written (row col : nat) (value : cell) (fmt : option num_format)
| Sleep (secs : nat)
| SessionExit
| SessionClose
| WorkbookClose.

(** [json.loads(resp.text)] *)
Definition json_loads (resp : response) : res (list element) :=
  match text resp with
  | Some l => Ok l
  | None => Raise JSONDecodeError
  end.

(** [str(resp)], as [print(resp)] shows it. *)
Definition str_response (resp : response) : string :=
  ("<Response [" ++ str_int (status_code resp) ++ "]>")%string.

(** ** The exception class of the scripts

    [class MyError(Exception)] declares [__init__(self, args)]: one
    positional parameter besides [self].  [MyError_call] is the
    exception that [raise MyError(a1, ..., an)] ends with: the instance
    when the call binds, the [TypeError] of the call otherwise (in the
    wording of CPython 3.10 and later).  For a call that binds, [MyError]
    carries the text handed to [Exception.__init__]; the assignment
    [self.args = args] that follows replaces the arguments, so [str()]
    of such an instance would not be this text.  No call in the scripts
    binds. *)

Inductive pyarg : Type :=
| ArgResp (resp : response)
| ArgStr (s : string).

Definition str_arg (a : pyarg) : string :=
  match a with
  | ArgResp resp => str_response resp
  | ArgStr s => s
  end.

Definition MyError_call (positional : list pyarg) : pyexn :=
  match positional with
  | [] =>
      TypeError
        "MyError.__init__() missing 1 required positional argument: 'args'"
  | [args] =>
      MyError ("my exception was raised with arguments " ++ str_arg args)
  | _ =>
      TypeError
        ("MyError.__init__() takes 2 positional arguments but "
           ++ str_int (Z.of_nat (S (length positional))) ++ " were given")
  end.

(** The text carried by an exception, as the traceback shows it (for
    [MyError], the text handed to [Exception.__init__]). *)
Definition message (e : pyexn) : string :=
  match e with
  | ZeroDivisionError => "float division by zero"
  | KeyError key => ("'" ++ key ++ "'")%string
  | ValueError msg => msg
  | JSONDecodeError => "Expecting value"
  | TypeError msg => msg
  | MyError msg => msg
  end.

(** ** Programs: a trace of events and a result *)

Definition M (A : Type) : Type := (list event * res A)%type.

Definition ret {A : Type} (a : A) : M A := ([], Ok a).

Definition bind {A B : Type} (m : M A) (k : A -> M B) : M B :=
  match m with
  | (t, Ok a) => let (t', r) := k a in ((t ++ t')%list, r)
  | (t, Raise e) => (t, Raise e)
  | (t, NonReal) => (t, NonReal)
  end.

Definition emit (e : event) : M unit := ([e], Ok tt).

Definition lift {A : Type} (r : res A) : M A := ([], r).

Definition raise {A : Type} (e : pyexn) : M A := ([], Raise e).

Declare Scope prog_scope.
Delimit Scope prog_scope with prog.
Notation "x <- m ;; k" := (bind m (fun x => k))
  (at level 61, m at next level, right associativity) : prog_scope.
Notation "m ;; k" := (bind m (fun _ => k))
  (at level 61, right associativity) : prog_scope.

(** ** Request paths *)

Definition uriBase : string := "https://www.space-track.org".
Definition requestLogin : string := "/ajaxauth/login".
Definition requestCmdAction : string := "/basicspacedata/query".

Definition requestFindDebris (v : variant) : string :=
  match v with
  | Strict =>
      "/class/tle_latest/OBJECT_TYPE/DEBRIS/ORDINAL/1/format/json/orderby/NORAD_CAT_ID%20asc"
  | Tolerant =>
      "/class/tle_latest/OBJECT_TYPE/DEBRIS/EPOCH/>now-30/orderby/NORAD_CAT_ID/format/json"
  end.

Definition requestOMMDebris1 : string := "/class/omm/NORAD_CAT_ID/".

Definition requestOMMDebris2 (v : variant) : string :=
  match v with
  | Strict => "/orderby/EPOCH%20asc/format/json"
  | Tolerant => "/orderby/EPOCH%20desc/limit/1/format/json"
  end.

Definition omm_url (v : variant) (s : string) : string :=
  (uriBase ++ requestCmdAction ++ requestOMMDebris1 ++ s
     ++ requestOMMDebris2 v)%string.

(** ** One element record: raw cells, derivation, derived cells *)

Section Records.
Local Open Scope prog_scope.

(** debris-track.py, lines 86-115. *)
Definition process_record_strict (wsline : nat) (e : element) : M nat :=
  name <- lift (subscript "OBJECT_NAME" (OBJECT_NAME e)) ;;
  epoch <- lift (subscript "EPOCH" (EPOCH e)) ;;
  emit (Printed ("Scanning debris " ++ name ++ " at epoch " ++ epoch)%string) ;;
  mmoti <- lift (subscript "MEAN_MOTION" (MEAN_MOTION e)) ;;
  ecc <- lift (subscript "ECCENTRICITY" (ECCENTRICITY e)) ;;
  id <- lift (subscript "NORAD_CAT_ID" (NORAD_CAT_ID e)) ;;
  n <- lift (py_int id) ;;
  emit (Written wsline 0 (CellInt n) None) ;;
  name1 <- lift (subscript "OBJECT_NAME" (OBJECT_NAME e)) ;;
  emit (Written wsline 1 (CellStr name1) None) ;;
  epoch1 <- lift (subscript "EPOCH" (EPOCH e)) ;;
  emit (Written wsline 2 (CellStr epoch1) None) ;;
  rev <- lift (subscript "REV_AT_EPOCH" (REV_AT_EPOCH e)) ;;
  emit (Written wsline 3 (CellNum rev) None) ;;
  inc <- lift (subscript "INCLINATION" (INCLINATION e)) ;;
  emit (Written wsline 4 (CellNum inc) (Some z1_format)) ;;
  emit (Written wsline 5 (CellNum ecc) (Some z3_format)) ;;
  emit (Written wsline 6 (CellNum mmoti) (Some z1_format)) ;;
  d <- lift (derive_strict mmoti ecc) ;;
  emit (Written wsline 7 (CellNum (apo d)) (Some z1_format)) ;;
  emit (Written wsline 8 (CellNum (per d)) (Some z1_format)) ;;
  emit (Written wsline 9 (CellNum (avg d)) (Some z1_format)) ;;
  raan <- lift (subscript "RA_OF_ASC_NODE" (RA_OF_ASC_NODE e)) ;;
  emit (Written wsline 10 (CellNum raan) (Some z1_format)) ;;
  argp <- lift (subscript "ARG_OF_PERICENTER" (ARG_OF_PERICENTER e)) ;;
  emit (Written wsline 11 (CellNum argp) (Some z1_format)) ;;
  ma <- lift (subscript "MEAN_ANOMALY" (MEAN_ANOMALY e)) ;;
  emit (Written wsline 12 (CellNum ma) (Some z1_format)) ;;
  emit (Written wsline 13 (CellNum (sma d)) (Some z1_format)) ;;
  emit (Written wsline 14 (CellNum (orbT d)) (Some z0_format)) ;;
  emit (Written wsline 15 (CellNum (orbV d)) (Some z0_format)) ;;
  ret (wsline + 1)%nat.

(** [int(e.get('NORAD_CAT_ID', 0))] *)
Definition catalog_number_or_zero (field : option string) : res Z :=
  match field with
  | Some s => py_int s
  | None => Ok 0%Z
  end.

(** debris-track-2.py, lines 113-149. *)
Definition process_record_tolerant (wsline : nat) (e : element) : M nat :=
  let obj_name := get (OBJECT_NAME e) "UNKNOWN" in
  let epoch := get (EPOCH e) "UNKNOWN" in
  emit (Printed ("Scanning debris " ++ obj_name ++ " at epoch " ++ epoch)%string) ;;
  let mmoti := get (MEAN_MOTION e) 0 in
  let ecc := get (ECCENTRICITY e) 0 in
  n <- lift (catalog_number_or_zero (NORAD_CAT_ID e)) ;;
  emit (Written wsline 0 (CellInt n) None) ;;
  emit (Written wsline 1 (CellStr obj_name) None) ;;
  emit (Written wsline 2 (CellStr epoch) None) ;;
  emit (Written wsline 3 (CellNum (get (REV_AT_EPOCH e) 0)) None) ;;
  emit (Written wsline 4 (CellNum (get (INCLINATION e) 0)) (Some z1_format)) ;;
  emit (Written wsline 5 (CellNum ecc) (Some z3_format)) ;;
  emit (Written wsline 6 (CellNum mmoti) (Some z1_format)) ;;
  d <- lift (derive_tolerant mmoti ecc) ;;
  emit (Written wsline 7 (CellNum (apo d)) (Some z1_format)) ;;
  emit (Written wsline 8 (CellNum (per d)) (Some z1_format)) ;;
  emit (Written wsline 9 (CellNum (avg d)) (Some z1_format)) ;;
  emit (Written wsline 10 (CellNum (get (RA_OF_ASC_NODE e) 0)) (Some z1_format)) ;;
  emit (Written wsline 11 (CellNum (get (ARG_OF_PERICENTER e) 0)) (Some z1_format)) ;;
  emit (Written wsline 12 (CellNum (get (MEAN_ANOMALY e) 0)) (Some z1_format)) ;;
  emit (Written wsline 13 (CellNum (sma d)) (Some z1_format)) ;;
  emit (Written wsline 14 (CellNum (orbT d)) (Some z0_format)) ;;
  emit (Written wsline 15 (CellNum (orbV d)) (Some z0_format)) ;;
  ret (wsline + 1)%nat.

Definition process_record (v : variant) (wsline : nat) (e : element) : M nat :=
  match v with
  | Strict => process_record_strict wsline e
  | Tolerant => process_record_tolerant wsline e
  end.

(** [for e in retData: ...], returning the next free row. *)
Fixpoint records_loop (v : variant) (wsline : nat) (retData : list element)
  : M nat :=
  match retData with
  | [] => ret wsline
  | e :: rest =>
      wsline' <- process_record v wsline e ;;
      records_loop v wsline' rest
  end.

End Records.

(** ** The session: login, candidate list, paced per-object fetches *)

Section Session.
Local Open Scope prog_scope.

(** [if resp.status_code != 200: print(resp); raise MyError(resp, why)];
    the login check has no [print], the two data requests have it. *)
Definition check_status (announce : bool) (resp : response) (why : string)
  : M unit :=
  if (status_code resp =? 200)%Z then ret tt
  else
    (if announce then emit (Printed (str_response resp)) else ret tt) ;;
    raise (MyError_call [ArgResp resp; ArgStr why]).

(** [for s in debrisIds: ...] with the counter [maxs]; [k] numbers the
    request.  Returns the final row and counter. *)
Fixpoint fetch_loop (v : variant) (srv : service) (k : nat)
    (debrisIds : list string) (wsline maxs : nat) : M (nat * nat) :=
  match debrisIds with
  | [] => ret (wsline, maxs)
  | s :: rest =>
      let req := GET (omm_url v s) in
      emit (Send req) ;;
      let resp := srv k req in
      check_status true resp ("GET fail for debris object " ++ s)%string ;;
      retData <- lift (json_loads resp) ;;
      wsline' <- records_loop v wsline retData ;;
      let maxs' := (maxs + 1)%nat in
      if (18 <? maxs')%nat then
        emit (Printed "Sleeping 60 seconds to avoid rate limits...") ;;
        emit (Sleep 60) ;;
        fetch_loop v srv (S k) rest wsline' 1%nat
      else
        fetch_loop v srv (S k) rest wsline' maxs'
  end.

(** The strict list comprehension [[e['NORAD_CAT_ID'] for e in retData]]. *)
Fixpoint ids_strict (retData : list element) : res (list string) :=
  match retData with
  | [] => Ok []
  | e :: rest =>
      res_bind (subscript "NORAD_CAT_ID" (NORAD_CAT_ID e)) (fun s =>
      res_bind (ids_strict rest) (fun l => Ok (s :: l)))
  end.

(** The tolerant one keeps the entries whose identifier is not [None]. *)
Fixpoint ids_tolerant (retData : list element) : list string :=
  match retData with
  | [] => []
  | e :: rest =>
      match NORAD_CAT_ID e with
      | Some s => s :: ids_tolerant rest
      | None => ids_tolerant rest
      end
  end.

Definition debrisIds_of (v : variant) (retData : list element)
  : res (list string) :=
  match v with
  | Strict => ids_strict retData
  | Tolerant => Ok (ids_tolerant retData)
  end.

(** The body of [with requests.Session() as session:]. *)
Definition session_block (v : variant) (siteCred : credentials)
    (srv : service) : M unit :=
  let login := POST (uriBase ++ requestLogin)%string siteCred in
  emit (Send login) ;;
  check_status false (srv 0%nat login) "POST fail on login" ;;
  let find := GET (uriBase ++ requestCmdAction ++ requestFindDebris v)%string in
  emit (Send find) ;;
  let resp := srv 1%nat find in
  check_status true resp "GET fail when requesting debris data" ;;
  retData <- lift (json_loads resp) ;;
  debrisIds <- lift (debrisIds_of v retData) ;;
  fetch_loop v srv 2%nat debrisIds 3%nat 1%nat ;;
  ret tt.

(** The whole script from the [with] statement on.  Leaving the block
    closes the session on every path; the statements after it run only
    when the block ended without an exception. *)
Definition run (v : variant) (siteCred : credentials) (srv : service)
  : M unit :=
  match session_block v siteCred srv with
  | (t, Ok _) =>
      ((t ++ [SessionExit; SessionClose; WorkbookClose;
              Printed "✅ Completed collecting debris data"])%list, Ok tt)
  | (t, r) => ((t ++ [SessionExit])%list, r)
  end.

End Session.

(** ** Views of a trace *)

(** The per-object requests and the pauses, as the pacing sees them. *)
Inductive pace : Type :=
| Request
| Pause (secs : nat).

Fixpoint pacing (t : list event) : list pace :=
  match t with
  | [] => []
  | Send (GET _) :: t' => Request :: pacing t'
  | Sleep n :: t' => Pause n :: pacing t'
  | _ :: t' => pacing t'
  end.

(** The data requests ([GET]) and the worksheet writes of a trace. *)
Definition is_fetch (e : event) : bool :=
  match e with
  | Send (GET _) => true
  | _ => false
  end.

Definition is_write (e : event) : bool :=
  match e with
  | Written _ _ _ _ => true
  | _ => false
  end.

Definition fetches (t : list event) : list event := filter is_fetch t.
Definition writes (t : list event) : list event := filter is_write t.

(** ** Closed forms of the derivation *)

(** The semi-major axis in kilometres for a positive mean motion. *)
Definition sma_of (mmoti : R) : R :=
  GM13 / Rpower (TPI86 * mmoti) (2.0 / 3.0) / 1000.0.

(** The derived values for a positive mean motion, with the square roots
    written as such. *)
Definition derived_of (mmoti ecc : R) : derived :=
  let a := sma_of mmoti in
  mkDerived a (a * (1.0 + ecc) - MRAD) (a * (1.0 - ecc) - MRAD)
    (a * 1000.0)
    (2.0 * PI * sqrt ((a * 1000.0) ^ 3 / GM))
    (sqrt (GM / (a * 1000.0))).

(** The mean motion and eccentricity that the tolerant script reads from
    a record. *)
Definition mmoti_of (e : element) : R := get (MEAN_MOTION e) 0.
Definition ecc_of (e : element) : R := get (ECCENTRICITY e) 0.

(** ** Sample inputs *)

(** The element of the end-to-end example. *)
Definition station : element :=
  mkElement (Some "25544") (Some "ISS (ZARYA)") (Some "2024-01-01T00:00:00")
    (Some 0) (Some 51.6) (Some 0.0003) (Some 15.5)
    (Some 0) (Some 0) (Some 0).

(** A record whose mean motion is zero. *)
Definition stalled : element :=
  mkElement (Some "90001") (Some "DEB") (Some "2024-01-01T00:00:00")
    (Some 0) (Some 51.6) (Some 0.0003) (Some 0)
    (Some 0) (Some 0) (Some 0).

(** A record without a mean motion. *)
Definition bare : element :=
  mkElement (Some "90002") None None None None None None None None None.

Definition operator : credentials := mkCredentials "operator" "secret".

(** A candidate-list entry: only the identifier matters there. *)
Definition candidate (id : string) : element :=
  mkElement (Some id) None None None None None None None None None.

(** A service that rejects the login. *)
Definition rejecting : service := fun _ _ => mkResponse 401 None.

(** A service that accepts the login, lists the object 25544 and
    answers the request for its elements with status 404. *)
Definition losing_25544 : service :=
  fun k _ =>
    match k with
    | 0%nat => mkResponse 200 (Some [])
    | 1%nat => mkResponse 200 (Some [candidate "25544"])
    | _ => mkResponse 404 None
    end.

(** A service that accepts the login, lists [n] objects with the same
    identifier and has no element record for any of them. *)
Definition empty_catalogue (n : nat) : service :=
  fun k _ =>
    match k with
    | 1%nat => mkResponse 200 (Some (repeat (candidate "25544") n))
    | _ => mkResponse 200 (Some [])
    end.

(** Nineteen per-object requests against that service, as the session
    starts them: request number 2, row 3, counter 1. *)
Definition nineteen_fetches : M (nat * nat) :=
  fetch_loop Tolerant (empty_catalogue 19) 2 (repeat "25544" 19) 3 1.

(** ** The pacing as the specification words it *)

Definition K : nat := 18.
Definition cooldown : nat := 60.

(** A counter [since] of requests issued since the last pause; when a
    request makes it reach [K], one pause follows and the counter
    restarts.  [n] is the number of requests still to issue. *)
Fixpoint schedule (since n : nat) : list pace :=
  match n with
  | O => []
  | S n' =>
      Request ::
        (if (S since =? K)%nat then Pause cooldown :: schedule 0 n'
         else schedule (S since) n')
  end.

(** [c] whole cycles of [K] requests and one pause, then [r] requests. *)
Definition cycles (c r : nat) : list pace :=
  (concat (repeat (repeat Request K ++ [Pause cooldown]) c)
     ++ repeat Request r)%list.

Definition is_request (p : pace) : bool :=
  match p with
  | Request => true
  | Pause _ => false
  end.

(** Events that touch neither the service nor the clock. *)
Definition is_local (e : event) : bool :=
  match e with
  | Printed _ | Written _ _ _ _ => true
  | _ => false
  end.

(** ** The report row as the specification names its columns *)

Record ReportRow : Type := mkRow {
  CatalogId : Z;
  Name : string;
  Epoch : string;
  RevolutionsAtEpoch : R;
  InclinationDeg : R;
  Eccentricity : R;
  MeanMotion : R;
  ApogeeAltitudeKm : R;
  PerigeeAltitudeKm : R;
  AverageAltitudeKm : R;
  RaanDeg : R;
  ArgPerigeeDeg : R;
  MeanAnomalyDeg : R;
  SemiMajorAxisKm : R;
  PeriodSeconds : R;
  VelocityKmPerSec : R
}.

(** The sixteen columns in their fixed order. *)
Definition columns (r : ReportRow) : list cell :=
  [ CellInt (CatalogId r); CellStr (Name r); CellStr (Epoch r);
    CellNum (RevolutionsAtEpoch r); CellNum (InclinationDeg r);
    CellNum (Eccentricity r); CellNum (MeanMotion r);
    CellNum (ApogeeAltitudeKm r); CellNum (PerigeeAltitudeKm r);
    CellNum (AverageAltitudeKm r); CellNum (RaanDeg r);
    CellNum (ArgPerigeeDeg r); CellNum (MeanAnomalyDeg r);
    CellNum (SemiMajorAxisKm r); CellNum (PeriodSeconds r);
    CellNum (VelocityKmPerSec r) ].

(** The cells of one worksheet line: columns 0, 1, 2, ... of [row]. *)
Definition line (row : nat) (r : ReportRow) : list (nat * nat * cell) :=
  map (fun cx => (row, fst cx, snd cx))
    (combine (seq 0 (length (columns r))) (columns r)).

(** The lines of consecutive rows starting at [row]. *)
Fixpoint lines (row : nat) (rs : list ReportRow) : list (nat * nat * cell) :=
  match rs with
  | [] => []
  | r :: rest => (line row r ++ lines (S row) rest)%list
  end.

(** The cells a trace writes, in order: row, column, value. *)
Fixpoint cell_writes (t : list event) : list (nat * nat * cell) :=
  match t with
  | [] => []
  | Written row col value _ :: t' => (row, col, value) :: cell_writes t'
  | _ :: t' => cell_writes t'
  end.

(** A field as each variant reads it. *)
Definition read {A : Type} (v : variant) (key : string) (field : option A)
    (default : A) : res A :=
  match v with
  | Strict => subscript key field
  | Tolerant => Ok (get field default)
  end.

Definition read_catalog_number (v : variant) (field : option string) : res Z :=
  match v with
  | Strict => res_bind (subscript "NORAD_CAT_ID" field) py_int
  | Tolerant => catalog_number_or_zero field
  end.

(** The row that an element record stands for. *)
Definition row_of (v : variant) (e : element) : res ReportRow :=
  (name <- read v "OBJECT_NAME" (OBJECT_NAME e) "UNKNOWN" ;;
   epoch <- read v "EPOCH" (EPOCH e) "UNKNOWN" ;;
   mmoti <- read v "MEAN_MOTION" (MEAN_MOTION e) 0 ;;
   ecc <- read v "ECCENTRICITY" (ECCENTRICITY e) 0 ;;
   id <- read_catalog_number v (NORAD_CAT_ID e) ;;
   rev <- read v "REV_AT_EPOCH" (REV_AT_EPOCH e) 0 ;;
   inc <- read v "INCLINATION" (INCLINATION e) 0 ;;
   d <- derive v mmoti ecc ;;
   raan <- read v "RA_OF_ASC_NODE" (RA_OF_ASC_NODE e) 0 ;;
   argp <- read v "ARG_OF_PERICENTER" (ARG_OF_PERICENTER e) 0 ;;
   ma <- read v "MEAN_ANOMALY" (MEAN_ANOMALY e) 0 ;;
   Ok (mkRow id name epoch rev inc ecc mmoti (apo d) (per d) (avg d)
         raan argp ma (sma d) (orbT d) (orbV d)))%res.

Fixpoint rows_of (v : variant) (es : list element) : res (list ReportRow) :=
  match es with
  | [] => Ok []
  | e :: rest =>
      (r <- row_of v e ;;
       rs <- rows_of v rest ;;
       Ok (r :: rs))%res
  end.

(** The element records that the per-object requests of a loop receive,
    in request order; [k] numbers the first request. *)
Fixpoint fetched (v : variant) (srv : service) (k : nat) (ids : list string)
  : list element :=
  match ids with
  | [] => []
  | s :: rest =>
      (match text (srv k (GET (omm_url v s))) with
       | Some l => l
       | None => []
       end ++ fetched v srv (S k) rest)%list
  end.

(** A service that accepts the login, lists the object 25544 and
    returns the record [station] for it. *)
Definition tracking : service :=
  fun k _ =>
    match k with
    | 0%nat => mkResponse 200 (Some [])
    | 1%nat => mkResponse 200 (Some [candidate "25544"])
    | _ => mkResponse 200 (Some [station])
    end.

(** The row of [station]. *)
Definition station_row : ReportRow :=
  let d := derived_of 15.5 0.0003 in
  mkRow 25544 "ISS (ZARYA)" "2024-01-01T00:00:00" 0 51.6 0.0003 15.5
    (apo d) (per d) (avg d) 0 0 0 (sma d) (orbT d) (orbV d).

(** Every per-object request of the loop is answered with status 200
    and a JSON list. *)
Fixpoint answered (v : variant) (srv : service) (k : nat) (ids : list string)
  : Prop :=
  match ids with
  | [] => True
  | s :: rest =>
      status_code (srv k (GET (omm_url v s))) = 200%Z /\
      text (srv k (GET (omm_url v s))) <> None /\
      answered v srv (S k) rest
  end.

(** A candidate-list entry without an identifier. *)
Definition bare_entry : element :=
  mkElement None None None None None None None None None None.

(** The rows of the records at the head of a response that a script
    processes to the end: those before the first record without a row. *)
Fixpoint leading_rows (v : variant) (es : list element) : list ReportRow :=
  match es with
  | [] => []
  | e :: rest =>
      match row_of v e with
      | Ok r => r :: leading_rows v rest
      | _ => []
      end
  end.

(** The rows of the records that a fetch loop processes to the end,
    whatever stops it: a request answered with another status than
    200, a body that does not decode, or a record without a row. *)
Fixpoint processed_rows (v : variant) (srv : service) (k : nat)
    (ids : list string) : list ReportRow :=
  match ids with
  | [] => []
  | s :: rest =>
      if (status_code (srv k (GET (omm_url v s))) =? 200)%Z then
        match text (srv k (GET (omm_url v s))) with
        | Some retData =>
            if (length (leading_rows v retData) =? length retData)%nat then
              (leading_rows v retData
                 ++ processed_rows v srv (S k) rest)%list
            else leading_rows v retData
        | None => []
        end
      else []
  end.

(** A service that accepts the login, lists the object 25544 and
    returns for it the record [station] followed by [stalled]. *)
Definition faltering : service :=
  fun k _ =>
    match k with
    | 0%nat => mkResponse 200 (Some [])
    | 1%nat => mkResponse 200 (Some [candidate "25544"])
    | _ => mkResponse 200 (Some [station; stalled])
    end.

(** The worksheet position of a written cell. *)
Definition position (c : nat * nat * cell) : nat * nat :=
  (fst (fst c), snd (fst c)).

(** ** The derivation in binary64

    The same two derivations on IEEE 754 doubles, for the inputs at the
    ends of the range where rounding, underflow and overflow decide the
    outcome.  Products, quotients, sums and differences are the IEEE
    operations; [x ** y] follows CPython's [float_pow], which settles
    the special cases itself and calls the C library's [pow] for the
    rest. *)

Module Binary64.
Import Floats.
Set Warnings "-inexact-float".
Local Open Scope float_scope.

(** How an expression on floats ends. *)
Inductive outcome (A : Type) : Type :=
| Value (a : A)
| ZeroDivision   (* ZeroDivisionError *)
| Overflow       (* OverflowError *)
| Complex.       (* a complex number *)

Arguments Value {A} a.
Arguments ZeroDivision {A}.
Arguments Overflow {A}.
Arguments Complex {A}.

Definition and_then {A B : Type} (o : outcome A) (k : A -> outcome B)
  : outcome B :=
  match o with
  | Value a => k a
  | ZeroDivision => ZeroDivision
  | Overflow => Overflow
  | Complex => Complex
  end.

Notation "x <- o ;; k" := (and_then o (fun x => k))
  (at level 61, o at next level, right associativity).

Definition GM : float := 398600441800000.0.
Definition MRAD : float := 6378.137.
Definition PI : float := 3.14159265358979.
Definition TPI86 : float := 2.0 * PI / 86400.0.

(** Truth value of a float: [x != 0.0]. *)
Definition truthy (x : float) : bool := negb (x =? 0).

(** [x / y]: a zero divisor raises, of either sign. *)
Definition float_div (x y : float) : outcome float :=
  if y =? 0 then ZeroDivision else Value (x / y).

(** [y == floor(y)] and [fmod(fabs(y), 2.0) == 1.0], read off the
    mantissa [m] and exponent [e] of [y = m * 2^e]. *)
Definition is_integer (y : float) : bool :=
  match Prim2SF y with
  | S754_zero _ => true
  | S754_infinity _ => true
  | S754_nan => false
  | S754_finite _ m e =>
      ((0 <=? e)%Z || (Z.land (Zpos m) (2 ^ (- e) - 1) =? 0)%Z)%bool
  end.

Definition is_odd_integer (y : float) : bool :=
  match Prim2SF y with
  | S754_finite _ m e =>
      if (e =? 0)%Z then Z.odd (Zpos m)
      else if (e <? 0)%Z then
        ((Z.land (Zpos m) (2 ^ (- e) - 1) =? 0)%Z
         && Z.odd (Z.shiftr (Zpos m) (- e)))%bool
      else false
  | _ => false
  end.

Section Scripts.

(** The C library's [pow] as [float_pow] uses it, on a finite positive
    base other than 1 and a finite nonzero exponent: [Some] of the
    double it returns, [None] when it reports a range error that is
    not an underflow to zero, which becomes [OverflowError]. *)
Variable libm_pow : float -> float -> option float.

(** The value that the module-level [GM ** (1.0/3.0)] produced. *)
Variable GM13 : float.

(** [x ** y] *)
Definition float_pow (x y : float) : outcome float :=
  if y =? 0 then Value 1
  else if is_nan x then Value x
  else if is_nan y then Value (if x =? 1 then 1 else y)
  else if is_infinity y then
    (if abs x =? 1 then Value 1
     else if Bool.eqb (0 <? y) (1 <? abs x) then Value (abs y)
     else Value 0)
  else if is_infinity x then
    (if 0 <? y then Value (if is_odd_integer y then x else abs x)
     else Value (if (is_odd_integer y && (x <? 0))%bool then neg_zero else 0))
  else if x =? 0 then
    (if y <? 0 then ZeroDivision
     else Value (if is_odd_integer y then x else 0))
  else if ((x <? 0) && negb (is_integer y))%bool then Complex
  else
    let negate := ((x <? 0) && is_odd_integer y)%bool in
    if abs x =? 1 then Value (if negate then -1 else 1)
    else
      match libm_pow (abs x) y with
      | Some r => Value (if negate then - r else r)
      | None => Overflow
      end.

Record derived : Type := mkDerived {
  sma : float;
  apo : float;
  per : float;
  smak : float;
  orbT : float;
  orbV : float
}.

(** [GM13 / ((TPI86 * mmoti) ** (2.0 / 3.0)) / 1000.0] *)
Definition sma_expr (mmoti : float) : outcome float :=
  p <- float_pow (TPI86 * mmoti) (2.0 / 3.0) ;;
  q <- float_div GM13 p ;;
  float_div q 1000.0.

(** [2.0 * PI * ((smak ** 3.0) / GM) ** 0.5] *)
Definition orbT_expr (smak : float) : outcome float :=
  c <- float_pow smak 3.0 ;;
  q <- float_div c GM ;;
  r <- float_pow q 0.5 ;;
  Value (2.0 * PI * r).

(** [(GM / smak) ** 0.5] *)
Definition orbV_expr (smak : float) : outcome float :=
  q <- float_div GM smak ;;
  float_pow q 0.5.

(** debris-track.py, lines 98-103. *)
Definition derive_strict (mmoti ecc : float) : outcome derived :=
  sma <- sma_expr mmoti ;;
  let apo := sma * (1.0 + ecc) - MRAD in
  let per := sma * (1.0 - ecc) - MRAD in
  let smak := sma * 1000.0 in
  orbT <- orbT_expr smak ;;
  orbV <- orbV_expr smak ;;
  Value (mkDerived sma apo per smak orbT orbV).

(** debris-track-2.py, lines 131-136; the integer [0] of the guards is
    the float [0.0], which it becomes in the products that follow. *)
Definition derive_tolerant (mmoti ecc : float) : outcome derived :=
  sma <- (if truthy mmoti then sma_expr mmoti else Value 0) ;;
  let apo := sma * (1.0 + ecc) - MRAD in
  let per := sma * (1.0 - ecc) - MRAD in
  let smak := sma * 1000.0 in
  orbT <- (if truthy sma then orbT_expr smak else Value 0) ;;
  orbV <- (if truthy sma then orbV_expr smak else Value 0) ;;
  Value (mkDerived sma apo per smak orbT orbV).

Definition derive (v : variant) (mmoti ecc : float) : outcome derived :=
  match v with
  | Strict => derive_strict mmoti ecc
  | Tolerant => derive_tolerant mmoti ecc
  end.

End Scripts.


(** The values of the tolerant script when its guards are not taken. *)
Definition sentinels (ecc : float) : derived :=
  mkDerived 0 (0 * (1.0 + ecc) - MRAD) (0 * (1.0 - ecc) - MRAD)
    (0 * 1000.0) 0 0.

(** A positive mean motion so small that its product with [TPI86]
    rounds to zero. *)
Definition tiny : float := 1e-320.

(** Sample surroundings for the derivation: a C library whose [pow]
    always reports a range error, and a double near the cube root of
    [GM]. *)
Definition pow_out_of_range : float -> float -> option float :=
  fun _ _ => None.

Definition GM13_sample : float := 73594.6.

End Binary64.

(** ** Further views and classifications *)

(** The requests of a trace, in order. *)
Fixpoint requests (t : list event) : list request :=
  match t with
  | [] => []
  | Send r :: t' => r :: requests t'
  | _ :: t' => requests t'
  end.

(** The worksheet positions a trace writes to, in order. *)
Definition positions (t : list event) : list (nat * nat) :=
  map (fun c => (fst (fst c), snd (fst c))) (cell_writes t).

(** Row-major order of worksheet positions. *)
Definition before (p q : nat * nat) : Prop :=
  (fst p < fst q)%nat \/ (fst p = fst q /\ (snd p < snd q)%nat).

(** The events of the session block: requests, prints, writes, sleeps. *)
Definition is_body (e : event) : bool :=
  match e with
  | Send _ | Printed _ | Written _ _ _ _ | Sleep _ => true
  | _ => false
  end.

(** The exceptions with which a run of each script can end. *)
Definition may_end (v : variant) (ex : pyexn) : bool :=
  match ex with
  | TypeError _ | JSONDecodeError | ValueError _ => true
  | KeyError _ | ZeroDivisionError =>
      match v with
      | Strict => true
      | Tolerant => false
      end
  | MyError _ => false
  end.

Definition is_MyError (ex : pyexn) : bool :=
  match ex with
  | MyError _ => true
  | _ => false
  end.

Definition is_KeyError (ex : pyexn) : bool :=
  match ex with
  | KeyError _ => true
  | _ => false
  end.

(** A result that is a value, a [NonReal], or an exception in [P]. *)
Definition raises_only {A : Type} (P : pyexn -> bool) (r : res A) : Prop :=
  match r with
  | Raise ex => P ex = true
  | _ => True
  end.

(** The number of pauses of a pacing. *)
Fixpoint pauses (l : list pace) : nat :=
  match l with
  | [] => 0
  | Pause _ :: l' => S (pauses l')
  | Request :: l' => pauses l'
  end.

(** The derived values of the tolerant script for a zero mean motion. *)
Definition derived_zero (ecc : R) : derived :=
  mkDerived 0 (0 * (1.0 + ecc) - MRAD) (0 * (1.0 - ecc) - MRAD)
    (0 * 1000.0) 0 0.

(** The [NORAD_CAT_ID] of a candidate entry as the decoded JSON has
    it: the key is absent, or it carries [null] (Python's [None]), or
    it carries another value. *)
Inductive id_field (A : Type) : Type :=
| IdAbsent
| IdNull
| IdValue (a : A).

Arguments IdAbsent {A}.
Arguments IdNull {A}.
Arguments IdValue {A} a.

(** [[e['NORAD_CAT_ID'] for e in retData]]: the values, a null as
    [None]; the first absent key raises. *)
Fixpoint ids_strict_json {A : Type} (entries : list (id_field A))
  : res (list (option A)) :=
  match entries with
  | [] => Ok []
  | f :: rest =>
      match f with
      | IdAbsent => Raise (KeyError "NORAD_CAT_ID")
      | IdNull => res_bind (ids_strict_json rest) (fun l => Ok (None :: l))
      | IdValue a =>
          res_bind (ids_strict_json rest) (fun l => Ok (Some a :: l))
      end
  end.

(** [[e.get('NORAD_CAT_ID') for e in retData
      if e.get('NORAD_CAT_ID') is not None]] *)
Fixpoint ids_tolerant_json {A : Type} (entries : list (id_field A))
  : list A :=
  match entries with
  | [] => []
  | IdValue a :: rest => a :: ids_tolerant_json rest
  | _ :: rest => ids_tolerant_json rest
  end.

Definition is_absent {A : Type} (f : id_field A) : bool :=
  match f with
  | IdAbsent => true
  | _ => false
  end.

Definition is_null {A : Type} (f : id_field A) : bool :=
  match f with
  | IdNull => true
  | _ => false
  end.

Definition is_value {A : Type} (f : id_field A) : bool :=
  match f with
  | IdValue _ => true
  | _ => false
  end.

(** What the subscript yields for a field whose key is present. *)
Definition subscripted {A : Type} (f : id_field A) : option A :=
  match f with
  | IdValue a => Some a
  | _ => None
  end.

(** The field of a record of the model, which has no null. *)
Definition id_field_of (e : element) : id_field string :=
  match NORAD_CAT_ID e with
  | Some s => IdValue s
  | None => IdAbsent
  end.

(** The seven cells written before the derivation. *)
Definition raw_cells (w : nat) (n : Z) (name epoch : string)
    (rev inc ecc mmoti : R) : list (nat * nat * cell) :=
  [ (w, 0%nat, CellInt n); (w, 1%nat, CellStr name);
    (w, 2%nat, CellStr epoch); (w, 3%nat, CellNum rev);
    (w, 4%nat, CellNum inc); (w, 5%nat, CellNum ecc);
    (w, 6%nat, CellNum mmoti) ].

(** A service that accepts the login and answers every data request
    with status 503. *)
Definition listing_down : service :=
  fun k _ =>
    match k with
    | 0%nat => mkResponse 200 (Some [])
    | _ => mkResponse 503 None
    end.

(** The request that lists the candidates, and the login request. *)
Definition find_request (v : variant) : request :=
  GET (uriBase ++ requestCmdAction ++ requestFindDebris v).

Definition login_request (siteCred : credentials) : request :=
  POST (uriBase ++ requestLogin) siteCred.

(** The identifiers that the candidate listing yields, empty when the
    listing cannot be read. *)
Definition listed (v : variant) (srv : service) : list string :=
  match text (srv 1%nat (find_request v)) with
  | Some retData =>
      match debrisIds_of v retData with
      | Ok ids => ids
      | _ => []
      end
  | None => []
  end.

(** The requests of a run that meets no failure. *)
Definition planned (v : variant) (siteCred : credentials) (srv : service)
  : list request :=
  login_request siteCred :: find_request v
    :: map (fun s => GET (omm_url v s)) (listed v srv).

(** A record with every field before the derivation present. *)
Definition element_with (id name epoch : string) (rev inc ecc mmoti : R)
    (raan argp ma : option R) : element :=
  mkElement (Some id) (Some name) (Some epoch) (Some rev) (Some inc)
    (Some ecc) (Some mmoti) raan argp ma.

(** The positions of a trace are in row-major order, at or below row
    [w] and within the sixteen columns. *)
Definition tidy (w : nat) (t : list event) : Prop :=
  StronglySorted before (positions t) /\
  Forall (fun p => (w <= fst p)%nat /\ (snd p < 16)%nat) (positions t).

(** Eighteen per-object requests against a service without records. *)
Definition eighteen_fetches : M (nat * nat) :=
  fetch_loop Tolerant (empty_catalogue 18) 2 (repeat "25544" 18) 3 1.

(** * Properties *)

(** ** Float operations on the cases the scripts reach *)

Lemma float_pow_pos (x y : R) :
  0 < x -> y <> 0 -> float_pow x y = Ok (Rpower x y).
Proof.
  intros Hx Hy. unfold float_pow.
  destruct (Req_dec_T y 0) as [E | _]; [contradiction |].
  destruct (Req_dec_T x 0) as [E | _]; [lra |].
  destruct (Rlt_dec x 0) as [L | _]; [lra | reflexivity].
Qed.

Lemma float_pow_zero_base (y : R) : 0 < y -> float_pow 0 y = Ok 0.
Proof.
  intros Hy. unfold float_pow.
  destruct (Req_dec_T y 0) as [E | _]; [lra |].
  destruct (Req_dec_T 0 0) as [_ | N]; [| contradiction].
  destruct (Rlt_dec y 0) as [L | _]; [lra | reflexivity].
Qed.

Lemma float_div_nonzero (x y : R) : y <> 0 -> float_div x y = Ok (x / y).
Proof.
  intros Hy. unfold float_div.
  destruct (Req_dec_T y 0) as [E | _]; [contradiction | reflexivity].
Qed.

Lemma float_div_by_zero (x : R) : float_div x 0 = Raise ZeroDivisionError.
Proof.
  unfold float_div. destruct (Req_dec_T 0 0) as [_ | N]; [reflexivity | contradiction].
Qed.

Lemma truthy_nonzero (x : R) : x <> 0 -> truthy x = true.
Proof.
  intros H. unfold truthy. destruct (Req_dec_T x 0); [contradiction | reflexivity].
Qed.

Lemma truthy_zero : truthy 0 = false.
Proof.
  unfold truthy. destruct (Req_dec_T 0 0); [reflexivity | contradiction].
Qed.

(** Two thirds is not an integer. *)
Lemma two_thirds_fractional : is_integral (2.0 / 3.0) = false.
Proof.
  unfold is_integral.
  destruct (Req_dec_T (IZR (Int_part (2.0 / 3.0))) (2.0 / 3.0)) as [E | _];
    [| reflexivity].
  exfalso.
  assert (H : (3 * Int_part (2.0 / 3.0) = 2)%Z).
  { apply eq_IZR. rewrite mult_IZR, E. lra. }
  lia.
Qed.

Lemma float_pow_negative_two_thirds (x : R) :
  x < 0 -> float_pow x (2.0 / 3.0) = NonReal.
Proof.
  intros Hx. unfold float_pow.
  destruct (Req_dec_T (2.0 / 3.0) 0) as [E | _]; [lra |].
  destruct (Req_dec_T x 0) as [E | _]; [lra |].
  destruct (Rlt_dec x 0) as [_ | N]; [| lra].
  now rewrite two_thirds_fractional.
Qed.

(** ** Constants *)

Lemma GM_pos : 0 < GM.
Proof. unfold GM. lra. Qed.

Lemma PI_pos : 0 < PI.
Proof. unfold PI. lra. Qed.

Lemma TPI86_pos : 0 < TPI86.
Proof. unfold TPI86, PI. lra. Qed.

Lemma MRAD_pos : 0 < MRAD.
Proof. unfold MRAD. lra. Qed.

Lemma GM13_pos : 0 < GM13.
Proof. unfold GM13, Rpower. apply exp_pos. Qed.

(** [GM13] is the value of the module-level expression [GM ** (1.0/3.0)]. *)
Lemma GM13_is_power : float_pow GM (1.0 / 3.0) = Ok GM13.
Proof.
  rewrite float_pow_pos by (try apply GM_pos; lra).
  unfold GM13. f_equal. f_equal. lra.
Qed.

Lemma Rpower_cube (x : R) : 0 < x -> Rpower x 3.0 = x ^ 3.
Proof.
  intros Hx. replace 3.0 with (INR 3) by (simpl; lra).
  now apply Rpower_pow.
Qed.

Lemma Rpower_half (x : R) : 0 < x -> Rpower x 0.5 = sqrt x.
Proof.
  intros Hx. replace 0.5 with (/ 2) by lra. now apply Rpower_sqrt.
Qed.

Lemma GM13_cube : GM13 ^ 3 = GM.
Proof.
  rewrite <- Rpower_cube by apply GM13_pos.
  unfold GM13. rewrite Rpower_mult.
  replace (1 / 3 * 3.0) with 1 by lra.
  apply Rpower_1, GM_pos.
Qed.

Lemma Rpower_two_thirds_cube (w : R) :
  0 < w -> Rpower w (2.0 / 3.0) ^ 3 = w ^ 2.
Proof.
  intros Hw.
  rewrite <- Rpower_cube by (unfold Rpower; apply exp_pos).
  rewrite Rpower_mult.
  replace (2.0 / 3.0 * 3.0) with (INR 2) by (simpl; lra).
  now apply Rpower_pow.
Qed.

(** ** The derivation for a positive mean motion *)

Lemma sma_of_pos (mmoti : R) : 0 < mmoti -> 0 < sma_of mmoti.
Proof.
  intros Hm. unfold sma_of.
  apply Rdiv_lt_0_compat; [| lra].
  apply Rdiv_lt_0_compat; [apply GM13_pos |].
  unfold Rpower. apply exp_pos.
Qed.

Lemma sma_expr_pos (mmoti : R) :
  0 < mmoti -> sma_expr mmoti = Ok (sma_of mmoti).
Proof.
  intros Hm. unfold sma_expr, sma_of.
  assert (Hw : 0 < TPI86 * mmoti)
    by (apply Rmult_lt_0_compat; [apply TPI86_pos | exact Hm]).
  rewrite float_pow_pos by (try exact Hw; lra). cbn [res_bind].
  assert (Hp : 0 < Rpower (TPI86 * mmoti) (2.0 / 3.0))
    by (unfold Rpower; apply exp_pos).
  rewrite float_div_nonzero by lra. cbn [res_bind].
  rewrite float_div_nonzero by lra. reflexivity.
Qed.

Lemma orbT_expr_pos (x : R) :
  0 < x -> orbT_expr x = Ok (2.0 * PI * sqrt (x ^ 3 / GM)).
Proof.
  intros Hx. unfold orbT_expr.
  rewrite float_pow_pos by (try exact Hx; lra). cbn [res_bind].
  rewrite Rpower_cube by exact Hx.
  pose proof GM_pos as HG.
  rewrite float_div_nonzero by lra. cbn [res_bind].
  assert (Hq : 0 < x ^ 3 / GM)
    by (apply Rdiv_lt_0_compat; [apply pow_lt; exact Hx | exact HG]).
  rewrite float_pow_pos by (try exact Hq; lra). cbn [res_bind].
  now rewrite Rpower_half.
Qed.

Lemma orbV_expr_pos (x : R) :
  0 < x -> orbV_expr x = Ok (sqrt (GM / x)).
Proof.
  intros Hx. unfold orbV_expr.
  rewrite float_div_nonzero by lra. cbn [res_bind].
  assert (Hq : 0 < GM / x)
    by (apply Rdiv_lt_0_compat; [apply GM_pos | exact Hx]).
  rewrite float_pow_pos by (try exact Hq; lra).
  now rewrite Rpower_half.
Qed.

(** Both scripts compute the same values when the mean motion is
    positive: the guards of the tolerant one are not taken. *)
Lemma derive_pos (v : variant) (mmoti ecc : R) :
  0 < mmoti -> derive v mmoti ecc = Ok (derived_of mmoti ecc).
Proof.
  intros Hm.
  pose proof (sma_of_pos mmoti Hm) as Ha.
  assert (Hk : 0 < sma_of mmoti * 1000.0) by lra.
  destruct v; unfold derive, derive_strict, derive_tolerant.
  - rewrite sma_expr_pos by exact Hm. cbn [res_bind].
    rewrite orbT_expr_pos, orbV_expr_pos by exact Hk. reflexivity.
  - rewrite truthy_nonzero by lra.
    rewrite sma_expr_pos by exact Hm. cbn [res_bind].
    rewrite truthy_nonzero by lra.
    rewrite orbT_expr_pos, orbV_expr_pos by exact Hk. reflexivity.
Qed.

(** Kepler's third law, as the constants give it: the cube of the
    semi-major axis in metres is [GM] over the squared angular rate. *)
Lemma smak_cube (mmoti : R) :
  0 < mmoti ->
  (sma_of mmoti * 1000.0) ^ 3 = GM / (TPI86 * mmoti) ^ 2.
Proof.
  intros Hm.
  assert (Hw : 0 < TPI86 * mmoti)
    by (apply Rmult_lt_0_compat; [apply TPI86_pos | exact Hm]).
  assert (Hp : 0 < Rpower (TPI86 * mmoti) (2.0 / 3.0))
    by (unfold Rpower; apply exp_pos).
  unfold sma_of.
  replace (GM13 / Rpower (TPI86 * mmoti) (2.0 / 3.0) / 1000.0 * 1000.0)
    with (GM13 / Rpower (TPI86 * mmoti) (2.0 / 3.0)) by (field; lra).
  unfold Rdiv at 1. rewrite Rpow_mult_distr, pow_inv.
  rewrite GM13_cube, Rpower_two_thirds_cube by exact Hw.
  reflexivity.
Qed.

(** The period is the length of the day over the mean motion. *)
Lemma orbT_closed (mmoti ecc : R) :
  0 < mmoti -> orbT (derived_of mmoti ecc) = 86400 / mmoti.
Proof.
  intros Hm. unfold derived_of. cbn [orbT].
  rewrite smak_cube by exact Hm.
  pose proof GM_pos as HG. pose proof TPI86_pos as HT.
  assert (Hw : 0 < TPI86 * mmoti) by (apply Rmult_lt_0_compat; assumption).
  replace (GM / (TPI86 * mmoti) ^ 2 / GM)
    with (/ (TPI86 * mmoti) * / (TPI86 * mmoti)) by (field; lra).
  rewrite sqrt_square by (left; apply Rinv_0_lt_compat; exact Hw).
  unfold TPI86 in *. pose proof PI_pos as HP.
  replace 2.0 with 2 in * by lra. replace 86400.0 with 86400 in * by lra.
  field. lra.
Qed.

(** ** Degenerate mean motion *)

Lemma derive_tolerant_zero (ecc : R) :
  derive_tolerant 0 ecc
  = Ok (mkDerived 0 (0 * (1.0 + ecc) - MRAD) (0 * (1.0 - ecc) - MRAD)
          (0 * 1000.0) 0 0).
Proof.
  unfold derive_tolerant. rewrite truthy_zero. cbn [res_bind].
  rewrite truthy_zero. reflexivity.
Qed.

Lemma sma_expr_zero : sma_expr 0 = Raise ZeroDivisionError.
Proof.
  unfold sma_expr. rewrite Rmult_0_r.
  rewrite float_pow_zero_base by lra. cbn [res_bind].
  now rewrite float_div_by_zero.
Qed.

Lemma sma_expr_negative (mmoti : R) : mmoti < 0 -> sma_expr mmoti = NonReal.
Proof.
  intros Hm. unfold sma_expr.
  assert (Hw : TPI86 * mmoti < 0) by (pose proof TPI86_pos; nra).
  now rewrite float_pow_negative_two_thirds.
Qed.

Lemma derive_negative (v : variant) (mmoti ecc : R) :
  mmoti < 0 -> derive v mmoti ecc = NonReal.
Proof.
  intros Hm. destruct v; unfold derive, derive_strict, derive_tolerant.
  - now rewrite sma_expr_negative.
  - rewrite truthy_nonzero by lra. now rewrite sma_expr_negative.
Qed.

Lemma derive_strict_zero (ecc : R) :
  derive Strict 0 ecc = Raise ZeroDivisionError.
Proof.
  unfold derive, derive_strict. now rewrite sma_expr_zero.
Qed.

(** ** Arithmetic helpers *)

Lemma cube_lt_inv (a b : R) : 0 <= a -> 0 <= b -> a ^ 3 < b ^ 3 -> a < b.
Proof.
  intros Ha Hb H. destruct (Rlt_le_dec a b) as [L | G]; [exact L |].
  exfalso. assert (b ^ 3 <= a ^ 3) by (apply pow_incr; lra). lra.
Qed.

Lemma lt_div (a b c : R) : 0 < b -> c * b < a -> c < a / b.
Proof.
  intros Hb H. apply (Rmult_lt_reg_r b); [exact Hb |].
  replace (a / b * b) with a by (field; lra). exact H.
Qed.

Lemma div_lt (a b c : R) : 0 < b -> a < c * b -> a / b < c.
Proof.
  intros Hb H. apply (Rmult_lt_reg_r b); [exact Hb |].
  replace (a / b * b) with a by (field; lra). exact H.
Qed.

Lemma sqrt_between (x lo hi : R) :
  0 <= lo -> 0 <= hi -> lo * lo <= x <= hi * hi -> lo <= sqrt x <= hi.
Proof.
  intros Hlo Hhi [H1 H2]. split.
  - rewrite <- (sqrt_square lo) by exact Hlo. now apply sqrt_le_1_alt.
  - rewrite <- (sqrt_square hi) by exact Hhi. now apply sqrt_le_1_alt.
Qed.

(** ** The end-to-end example: 15.5 revolutions per day *)

Lemma kepler_bounds_example :
  6790000 ^ 3 < GM / (TPI86 * 15.5) ^ 2 < 6800000 ^ 3.
Proof.
  unfold GM, TPI86, PI. split.
  - apply lt_div; [apply pow_lt; lra | simpl; lra].
  - apply div_lt; [apply pow_lt; lra | simpl; lra].
Qed.

Lemma sma_example : 6790 < sma_of 15.5 < 6800.
Proof.
  assert (Hm : 0 < 15.5) by lra.
  pose proof (sma_of_pos _ Hm) as Ha.
  pose proof (smak_cube _ Hm) as Hc.
  destruct kepler_bounds_example as [Hlo Hhi]. rewrite <- Hc in Hlo, Hhi.
  apply cube_lt_inv in Hlo; [| lra | lra].
  apply cube_lt_inv in Hhi; [| lra | lra].
  lra.
Qed.

Lemma orbV_example (ecc : R) : 7610 <= orbV (derived_of 15.5 ecc) <= 7710.
Proof.
  destruct sma_example as [Hlo Hhi].
  unfold derived_of. cbn [orbV].
  apply sqrt_between; [lra | lra |].
  assert (Hk : 0 < sma_of 15.5 * 1000.0) by lra.
  split; left.
  - apply lt_div; [exact Hk |]. unfold GM. nra.
  - apply div_lt; [exact Hk |]. unfold GM. nra.
Qed.

Lemma orbT_example (ecc : R) : 5574 < orbT (derived_of 15.5 ecc) < 5575.
Proof.
  rewrite orbT_closed by lra. split.
  - apply lt_div; lra.
  - apply div_lt; lra.
Qed.

(** ** Claims on the derivation *)

(** C1 (as stated, refuted): under the tolerant policy a record whose
    MEAN_MOTION is 0 would get the sentinel 0 in every derived field.
    For the record [stalled] the derivation returns, but the apogee
    altitude is [-MRAD], which is not 0. *)
Lemma zero_mean_motion_altitude_not_zero :
  MEAN_MOTION stalled = Some 0 /\
  exists d, derive Tolerant (mmoti_of stalled) (ecc_of stalled) = Ok d /\
            apo d = - MRAD /\ apo d <> 0.
Proof.
  split; [reflexivity |].
  unfold derive, mmoti_of, ecc_of, stalled, get. cbn [MEAN_MOTION ECCENTRICITY].
  rewrite derive_tolerant_zero. eexists. split; [reflexivity |].
  cbn [apo]. pose proof MRAD_pos. split; lra.
Qed.

(** C1 (amended): under the tolerant policy, for every element record
    whose MEAN_MOTION field is 0 or absent (defaulting to 0), the
    derivation does not raise and produces 0 for the semi-major axis, the
    period and the velocity; the apogee, perigee and average altitudes
    are [-MRAD], the altitude of a zero semi-major axis. *)
Theorem zero_mean_motion_sentinels (e : element) :
  MEAN_MOTION e = Some 0 \/ MEAN_MOTION e = None ->
  exists d, derive Tolerant (mmoti_of e) (ecc_of e) = Ok d /\
            sma d = 0 /\ orbT d = 0 /\ orbV d = 0 /\
            apo d = - MRAD /\ per d = - MRAD /\ avg d = - MRAD.
Proof.
  intros H.
  assert (Hm : mmoti_of e = 0)
    by (unfold mmoti_of, get; destruct H as [-> | ->]; reflexivity).
  rewrite Hm. unfold derive. rewrite derive_tolerant_zero.
  eexists. split; [reflexivity |].
  unfold avg. cbn [sma apo per orbT orbV].
  repeat split; lra.
Qed.

Lemma zero_mean_motion_sentinels_witness :
  (MEAN_MOTION bare = Some 0 \/ MEAN_MOTION bare = None) /\
  exists d, derive Tolerant (mmoti_of bare) (ecc_of bare) = Ok d /\
            sma d = 0 /\ orbT d = 0 /\ orbV d = 0 /\
            apo d = - MRAD /\ per d = - MRAD /\ avg d = - MRAD.
Proof.
  split.
  - right. reflexivity.
  - apply (zero_mean_motion_sentinels bare). right. reflexivity.
Defined.

(** C2 (as stated, refuted): for MEAN_MOTION 15.5 and ECCENTRICITY
    0.0003 the velocity would be within 0.05 of 7.66.  The value the
    scripts compute is above 7610: it is in metres per second. *)
Lemma example_velocity_not_in_km_per_s :
  exists d, derive Tolerant (mmoti_of station) (ecc_of station) = Ok d /\
            ~ Rabs (orbV d - 7.66) <= 0.05.
Proof.
  unfold mmoti_of, ecc_of, station, get. cbn [MEAN_MOTION ECCENTRICITY].
  rewrite derive_pos by lra. eexists. split; [reflexivity |].
  pose proof (orbV_example 0.0003) as [Hlo _].
  intros H. pose proof (Rle_abs (orbV (derived_of 15.5 0.0003) - 7.66)). lra.
Qed.

(** C2 (amended): for every element set with a positive mean motion the
    velocity value equals [sqrt (GM / (semiMajorAxisKm * 1000))], which
    is in metres per second ([GM] in m^3/s^2 over metres); for
    MEAN_MOTION 15.5 and ECCENTRICITY 0.0003 the semi-major axis is
    within 5 of 6795, the period within 5 of 5571 and the velocity value
    within 50 of 7660. *)
Theorem velocity_formula_and_example (v : variant) :
  (forall mmoti ecc : R,
      0 < mmoti ->
      exists d, derive v mmoti ecc = Ok d /\
                orbV d = sqrt (GM / (sma d * 1000))) /\
  (exists d, derive v (mmoti_of station) (ecc_of station) = Ok d /\
             Rabs (sma d - 6795) <= 5 /\
             Rabs (orbT d - 5571) <= 5 /\
             Rabs (orbV d - 7660) <= 50).
Proof.
  split.
  - intros mmoti ecc Hm. rewrite derive_pos by exact Hm.
    eexists. split; [reflexivity |].
    unfold derived_of. cbn [orbV sma]. do 3 f_equal. lra.
  - unfold mmoti_of, ecc_of, station, get. cbn [MEAN_MOTION ECCENTRICITY].
    rewrite derive_pos by lra. eexists. split; [reflexivity |].
    pose proof sma_example as Ha.
    pose proof (orbT_example 0.0003) as Ht.
    pose proof (orbV_example 0.0003) as Hv.
    replace (sma (derived_of 15.5 0.0003)) with (sma_of 15.5) by reflexivity.
    repeat split; apply Rabs_le; lra.
Qed.

Lemma velocity_formula_and_example_witness :
  0 < 15.5 /\
  exists d, derive Strict 15.5 0.0003 = Ok d /\
            orbV d = sqrt (GM / (sma d * 1000)).
Proof.
  split; [lra |].
  apply (proj1 (velocity_formula_and_example Strict) 15.5 0.0003). lra.
Defined.

(** C3 (as stated, refuted): a mean motion [<= 0] would be treated as
    degenerate, the negative base being guarded before the fractional
    power.  For a mean motion of -1 the tolerant script raises the
    negative base to the power 2/3: the result is not real. *)
Lemma negative_mean_motion_not_guarded :
  -1 <= 0 /\ derive Tolerant (-1) 0 = NonReal.
Proof.
  split; [lra |]. apply derive_negative. lra.
Qed.

(** C3 (amended): for every element set with a mean motion equal to 0
    the tolerant script treats the input as degenerate and does not
    crash: the zero is guarded before any exponentiation or division,
    and the semi-major axis, period and velocity are 0.  A negative mean
    motion is not guarded in either script: the fractional power of the
    negative base is not real.  The strict script has no guard at all:
    a zero mean motion raises [ZeroDivisionError]. *)
Theorem degenerate_mean_motion (mmoti ecc : R) :
  (mmoti = 0 ->
   (exists d, derive Tolerant mmoti ecc = Ok d /\
              sma d = 0 /\ orbT d = 0 /\ orbV d = 0) /\
   derive Strict mmoti ecc = Raise ZeroDivisionError) /\
  (mmoti < 0 -> forall v, derive v mmoti ecc = NonReal).
Proof.
  split.
  - intros ->. split.
    + unfold derive. rewrite derive_tolerant_zero.
      eexists. split; [reflexivity |]. cbn [sma orbT orbV]. repeat split.
    + apply derive_strict_zero.
  - intros Hm v. now apply derive_negative.
Qed.

Lemma degenerate_mean_motion_witness :
  ((exists d, derive Tolerant 0 0.0003 = Ok d /\
              sma d = 0 /\ orbT d = 0 /\ orbV d = 0) /\
   derive Strict 0 0.0003 = Raise ZeroDivisionError) /\
  (forall v, derive v (-15.5) 0.0003 = NonReal).
Proof.
  split.
  - apply (proj1 (degenerate_mean_motion 0 0.0003)). reflexivity.
  - apply (proj2 (degenerate_mean_motion (-15.5) 0.0003)). lra.
Defined.




(** C8: for every element set with a positive mean motion and an
    eccentricity in [0,1) the apogee altitude is at least the perigee
    altitude; when the eccentricity is 0 the apogee, perigee and average
    altitudes are equal. *)
Theorem apogee_not_below_perigee (v : variant) (mmoti ecc : R) :
  0 < mmoti -> 0 <= ecc < 1 ->
  exists d, derive v mmoti ecc = Ok d /\
            per d <= apo d /\
            (ecc = 0 -> apo d = per d /\ per d = avg d).
Proof.
  intros Hm He. rewrite derive_pos by exact Hm.
  eexists. split; [reflexivity |].
  pose proof (sma_of_pos mmoti Hm) as Ha.
  unfold avg, derived_of. cbn [apo per]. split.
  - nra.
  - intros ->. split; lra.
Qed.

Lemma apogee_not_below_perigee_witness :
  0 < 15.5 /\ 0 <= 0 < 1 /\
  exists d, derive Strict 15.5 0 = Ok d /\
            per d <= apo d /\
            (0 = 0 -> apo d = per d /\ per d = avg d).
Proof.
  split; [lra |]. split; [lra |].
  apply (apogee_not_below_perigee Strict 15.5 0); lra.
Defined.

(** C10: for every element set with a positive mean motion the average
    altitude equals the semi-major axis minus [MRAD] exactly, in real
    arithmetic; it is the same for every eccentricity. *)
Theorem average_altitude_is_sma_minus_MRAD (v : variant) (mmoti ecc : R) :
  0 < mmoti ->
  exists d, derive v mmoti ecc = Ok d /\
            avg d = sma d - MRAD /\
            forall ecc', exists d', derive v mmoti ecc' = Ok d' /\
                                    avg d' = avg d.
Proof.
  intros Hm. rewrite derive_pos by exact Hm.
  eexists. split; [reflexivity |]. split.
  - unfold avg, derived_of. cbn [apo per sma]. lra.
  - intros ecc'. rewrite derive_pos by exact Hm.
    eexists. split; [reflexivity |].
    unfold avg, derived_of. cbn [apo per]. lra.
Qed.

Lemma average_altitude_is_sma_minus_MRAD_witness :
  0 < 15.5 /\
  exists d, derive Tolerant 15.5 0.0003 = Ok d /\
            avg d = sma d - MRAD /\
            forall ecc', exists d', derive Tolerant 15.5 ecc' = Ok d' /\
                                    avg d' = avg d.
Proof.
  split; [lra |].
  apply (average_altitude_is_sma_minus_MRAD Tolerant 15.5 0.0003). lra.
Defined.

(** ** Traces of composed programs *)

Lemma bind_fst {A B : Type} (m : M A) (k : A -> M B) :
  fst (bind m k)
  = (fst m ++ match snd m with
              | Ok a => fst (k a)
              | _ => []
              end)%list.
Proof.
  destruct m as [t [a | e | ]]; cbn.
  - destruct (k a). reflexivity.
  - now rewrite app_nil_r.
  - now rewrite app_nil_r.
Qed.

Lemma bind_snd {A B : Type} (m : M A) (k : A -> M B) :
  snd (bind m k)
  = match snd m with
    | Ok a => snd (k a)
    | Raise e => Raise e
    | NonReal => NonReal
    end.
Proof.
  destruct m as [t [a | e | ]]; cbn; try reflexivity.
  destruct (k a). reflexivity.
Qed.

Lemma bind_local {A B : Type} (m : M A) (k : A -> M B) :
  forallb is_local (fst m) = true ->
  (forall a, forallb is_local (fst (k a)) = true) ->
  forallb is_local (fst (bind m k)) = true.
Proof.
  intros Hm Hk. rewrite bind_fst, forallb_app, Hm. cbn.
  destruct (snd m); [apply Hk | reflexivity | reflexivity].
Qed.

Ltac local_steps :=
  repeat first
    [ reflexivity
    | apply bind_local; [reflexivity | intros ? ]
    | progress cbv zeta ].

Lemma process_record_local (v : variant) (w : nat) (e : element) :
  forallb is_local (fst (process_record v w e)) = true.
Proof.
  destruct v; unfold process_record, process_record_strict,
    process_record_tolerant; local_steps.
Qed.

Lemma records_loop_local (v : variant) (recs : list element) (w : nat) :
  forallb is_local (fst (records_loop v w recs)) = true.
Proof.
  revert w. induction recs as [| e rest IH]; intros w; cbn [records_loop].
  - reflexivity.
  - apply bind_local; [apply process_record_local | intros a; apply IH].
Qed.

Lemma pacing_app (t1 t2 : list event) :
  pacing (t1 ++ t2) = (pacing t1 ++ pacing t2)%list.
Proof.
  induction t1 as [| e t IH]; [reflexivity |].
  destruct e as [[] | | | | | |]; cbn; now rewrite IH.
Qed.

Lemma pacing_local (t : list event) :
  forallb is_local t = true -> pacing t = [].
Proof.
  induction t as [| e t IH]; [reflexivity |].
  destruct e; cbn; try discriminate; exact IH.
Qed.

(** ** The schedule *)

Lemma schedule_S (since n : nat) :
  schedule since (S n)
  = Request ::
      (if (S since =? K)%nat then Pause cooldown :: schedule 0 n
       else schedule (S since) n).
Proof. reflexivity. Qed.

Lemma schedule_requests (r since : nat) :
  (since + r < K)%nat -> schedule since r = repeat Request r.
Proof.
  revert since. induction r as [| r IH]; intros since H; [reflexivity |].
  cbn [schedule repeat].
  destruct (Nat.eqb_spec (S since) K) as [E | _]; [lia |].
  f_equal. apply IH. lia.
Qed.

Lemma schedule_to_pause (j since n : nat) :
  (since + S j = K)%nat ->
  schedule since (S j + n)
  = (repeat Request (S j) ++ Pause cooldown :: schedule 0 n)%list.
Proof.
  revert since. induction j as [| j IH]; intros since H.
  - cbn [schedule repeat Nat.add app].
    destruct (Nat.eqb_spec (S since) K) as [_ | N]; [reflexivity | lia].
  - change (S (S j) + n)%nat with (S (S j + n)).
    cbn [schedule].
    destruct (Nat.eqb_spec (S since) K) as [E | _]; [lia |].
    rewrite IH by lia. reflexivity.
Qed.

Lemma schedule_cycles (c r : nat) :
  (r < K)%nat -> schedule 0 (c * K + r) = cycles c r.
Proof.
  intros Hr. unfold cycles. induction c as [| c IH].
  - cbn [Nat.mul Nat.add repeat concat app].
    apply schedule_requests. lia.
  - replace (S c * K + r)%nat with (S (K - 1) + (c * K + r))%nat
      by (unfold K; lia).
    rewrite schedule_to_pause by (unfold K; lia).
    rewrite IH. cbn [repeat concat].
    replace (S (K - 1)) with K by (unfold K; lia).
    now rewrite <- !app_assoc.
Qed.

Lemma schedule_div_mod (n : nat) :
  schedule 0 n = cycles (n / K) (n mod K).
Proof.
  rewrite <- schedule_cycles by (apply Nat.mod_upper_bound; discriminate).
  f_equal. rewrite Nat.mul_comm. apply Nat.div_mod_eq.
Qed.

(** A stretch of requests at the head of a schedule fits in what is left
    of the current cycle. *)
Lemma schedule_head_stretch (n since : nat) (seg rest : list pace) :
  (since < K)%nat ->
  schedule since n = (seg ++ rest)%list ->
  forallb is_request seg = true ->
  (length seg <= K - since)%nat.
Proof.
  revert since seg rest. induction n as [| n IH]; intros since seg rest Hs E Hq.
  - cbn in E. symmetry in E. apply app_eq_nil in E as [-> _]. cbn [length]. lia.
  - destruct seg as [| p seg]; [cbn [length]; lia |].
    rewrite schedule_S in E. rewrite <- app_comm_cons in E.
    cbn [forallb andb] in Hq. apply andb_prop in Hq as [_ Hq].
    revert E. destruct (Nat.eqb_spec (S since) K) as [Ek | Nk]; intros E.
    + destruct seg as [| q seg]; [cbn [length]; lia |].
      rewrite <- app_comm_cons in E. injection E as _ Eq _. subst q.
      discriminate Hq.
    + injection E as _ E. cbn [length].
      assert (length seg <= K - S since)%nat
        by (apply (IH (S since) seg rest); [lia | exact E | exact Hq]).
      lia.
Qed.

(** No stretch of a schedule without a pause has more than [K] requests. *)
Lemma schedule_stretch (n since : nat) (a seg b : list pace) :
  (since < K)%nat ->
  schedule since n = (a ++ seg ++ b)%list ->
  forallb is_request seg = true ->
  (length seg <= K)%nat.
Proof.
  revert since a. induction n as [| n IH]; intros since a Hs E Hq.
  - cbn in E. symmetry in E.
    apply app_eq_nil in E as [_ E]. apply app_eq_nil in E as [-> _].
    cbn [length]. lia.
  - destruct a as [| p a].
    + rewrite app_nil_l in E.
      pose proof (schedule_head_stretch (S n) since seg b Hs E Hq). lia.
    + rewrite schedule_S in E. rewrite <- app_comm_cons in E.
      revert E. destruct (Nat.eqb_spec (S since) K) as [Ek | Nk]; intros E.
      * destruct a as [| q a].
        -- rewrite app_nil_l in E. destruct seg as [| q seg]; [cbn [length]; lia |].
           rewrite <- app_comm_cons in E. injection E as _ Eq _. subst q.
           discriminate Hq.
        -- rewrite <- app_comm_cons in E. injection E as _ _ E.
           apply (IH 0%nat a); [unfold K; lia | exact E | exact Hq].
      * injection E as _ E.
        apply (IH (S since) a); [lia | exact E | exact Hq].
Qed.

Lemma firstn_stretch {A : Type} (n : nat) (l a seg b : list A) :
  firstn n l = (a ++ seg ++ b)%list ->
  l = (a ++ seg ++ (b ++ skipn n l))%list.
Proof.
  intros E. rewrite <- (firstn_skipn n l) at 1. rewrite E.
  now rewrite <- !app_assoc.
Qed.

(** ** One turn of the fetch loop *)

Lemma fetch_loop_step (v : variant) (srv : service) (k : nat) (s : string)
    (rest : list string) (w m : nat) :
  let req := GET (omm_url v s) in
  let resp := srv k req in
  fetch_loop v srv k (s :: rest) w m
  = if (status_code resp =? 200)%Z then
      match json_loads resp with
      | Ok retData =>
          match records_loop v w retData with
          | (tr, Ok w1) =>
              if (18 <? m + 1)%nat then
                let (t', r) := fetch_loop v srv (S k) rest w1 1 in
                ((Send req :: tr
                    ++ Printed "Sleeping 60 seconds to avoid rate limits..."
                    :: Sleep 60 :: t')%list, r)
              else
                let (t', r) := fetch_loop v srv (S k) rest w1 (m + 1) in
                ((Send req :: tr ++ t')%list, r)
          | (tr, Raise e) => (Send req :: tr, Raise e)
          | (tr, NonReal) => (Send req :: tr, NonReal)
          end
      | Raise e => ([Send req], Raise e)
      | NonReal => ([Send req], NonReal)
      end
    else
      ([Send req; Printed (str_response resp)],
       Raise (MyError_call
                [ArgResp resp;
                 ArgStr ("GET fail for debris object " ++ s)%string])).
Proof.
  intros req resp. cbn [fetch_loop]. fold req. fold resp.
  unfold check_status.
  destruct (status_code resp =? 200)%Z; [| reflexivity].
  destruct (json_loads resp) as [retData | e | ]; [| reflexivity | reflexivity].
  cbn [bind emit ret lift app].
  destruct (records_loop v w retData) as [tr [w1 | e | ]];
    [| reflexivity | reflexivity].
  destruct (18 <? m + 1)%nat.
  - cbn [bind emit app].
    destruct (fetch_loop v srv (S k) rest w1 1) as [t' r]. reflexivity.
  - cbn [bind emit app].
    destruct (fetch_loop v srv (S k) rest w1 (m + 1)) as [t' r]. reflexivity.
Qed.

Lemma pacing_turn (req : request) (tr t : list event) :
  is_fetch (Send req) = true ->
  forallb is_local tr = true ->
  pacing (Send req :: tr ++ t) = Request :: pacing t.
Proof.
  intros Hr Hl. destruct req as [u c | u]; [discriminate |].
  cbn [pacing]. now rewrite pacing_app, pacing_local.
Qed.

Lemma fetch_loop_paced (v : variant) (srv : service) (ids : list string) :
  forall k w m,
    (1 <= m <= K)%nat ->
    (exists n, pacing (fst (fetch_loop v srv k ids w m))
               = firstn n (schedule (m - 1) (length ids))) /\
    (forall w' m',
        snd (fetch_loop v srv k ids w m) = Ok (w', m') ->
        pacing (fst (fetch_loop v srv k ids w m))
        = schedule (m - 1) (length ids) /\
        m' = (1 + (m - 1 + length ids) mod K)%nat).
Proof.
  induction ids as [| s rest IH]; intros k w m Hm.
  - cbn [fetch_loop ret fst snd length schedule pacing]. split.
    + exists 0%nat. reflexivity.
    + intros w' m' E. injection E as _ <-. split; [reflexivity |].
      rewrite Nat.add_0_r, Nat.mod_small by lia. lia.
  - rewrite fetch_loop_step. cbn zeta. cbn [length]. rewrite schedule_S.
    set (req := GET (omm_url v s)).
    destruct (status_code (srv k req) =? 200)%Z.
    2:{ split; [exists 1%nat; reflexivity | intros ? ? E; discriminate E]. }
    destruct (json_loads (srv k req)) as [retData | e | ].
    2:{ split; [exists 1%nat; reflexivity | intros ? ? E; discriminate E]. }
    2:{ split; [exists 1%nat; reflexivity | intros ? ? E; discriminate E]. }
    pose proof (records_loop_local v retData w) as Hl.
    destruct (records_loop v w retData) as [tr [w1 | e | ]]; cbn [fst] in Hl.
    2:{ split; [| intros ? ? E; discriminate E].
        exists 1%nat. cbn [fst]. rewrite <- (app_nil_r tr).
        now rewrite pacing_turn. }
    2:{ split; [| intros ? ? E; discriminate E].
        exists 1%nat. cbn [fst]. rewrite <- (app_nil_r tr).
        now rewrite pacing_turn. }
    destruct (Nat.ltb_spec 18 (m + 1)) as [Hfull | Hroom].
    + assert (Em : m = K) by (unfold K in *; lia). subst m.
      destruct (IH (S k) w1 1%nat) as [[n Hn] Hdone]; [unfold K; lia |].
      destruct (fetch_loop v srv (S k) rest w1 1) as [t' r].
      cbn [fst snd] in *.
      rewrite pacing_turn by (try reflexivity; exact Hl).
      change (pacing (Printed "Sleeping 60 seconds to avoid rate limits..."
                        :: Sleep 60 :: t'))
        with (Pause 60 :: pacing t').
      replace (S (K - 1) =? K)%nat with true by reflexivity.
      change (1 - 1)%nat with 0%nat in *. split.
      * exists (S (S n)). cbn [firstn]. now rewrite Hn.
      * intros w' m' E. destruct (Hdone w' m' E) as [Hp ->].
        split; [now rewrite Hp |].
        f_equal. unfold K.
        replace (18 - 1 + S (length rest))%nat
          with (0 + length rest + 1 * 18)%nat by lia.
        now rewrite Nat.Div0.mod_add.
    + destruct (IH (S k) w1 (m + 1)%nat) as [[n Hn] Hdone];
        [unfold K in *; lia |].
      destruct (fetch_loop v srv (S k) rest w1 (m + 1)) as [t' r].
      cbn [fst snd] in *.
      rewrite pacing_turn by (try reflexivity; exact Hl).
      replace (m + 1 - 1)%nat with (S (m - 1)) in * by lia.
      destruct (Nat.eqb_spec (S (m - 1)) K) as [E | _];
        [unfold K in *; lia |].
      split.
      * exists (S n). cbn [firstn]. now rewrite Hn.
      * intros w' m' E. destruct (Hdone w' m' E) as [Hp ->].
        split; [now rewrite Hp |].
        do 2 f_equal. lia.
Qed.

(** ** Claims on the pacing *)

(** C4: the fetch loop keeps a counter that is one more than the number
    of per-object requests issued since the last pause.  After every
    [K] = 18 requests exactly one pause of [cooldown] = 60 follows, the
    counter restarts, and the next [K - 1] requests are not followed by
    a pause: the requests and pauses of a completed loop are whole
    cycles of [K] requests and one pause, then fewer than [K] requests;
    those of a loop that stops early are an initial part of that; and
    no stretch without a pause has more than [K] requests. *)
Theorem paced_fetches (v : variant) (srv : service) (k w : nat)
    (ids : list string) :
  let out := fetch_loop v srv k ids w 1 in
  let n := length ids in
  (K = 18 /\ cooldown = 60)%nat /\
  (exists j, pacing (fst out) = firstn j (cycles (n / K) (n mod K))) /\
  (forall w' m',
      snd out = Ok (w', m') ->
      pacing (fst out) = cycles (n / K) (n mod K) /\
      m' = (1 + n mod K)%nat) /\
  (forall a seg b,
      pacing (fst out) = (a ++ seg ++ b)%list ->
      forallb is_request seg = true ->
      (length seg <= K)%nat).
Proof.
  intros out n.
  assert (H1 : (1 <= 1 <= K)%nat) by (unfold K; lia).
  destruct (fetch_loop_paced v srv ids k w 1 H1) as [[j Hj] Hdone].
  change (1 - 1)%nat with 0%nat in *. fold out in Hj, Hdone. fold n in Hj, Hdone.
  split; [split; reflexivity |]. split; [| split].
  - exists j. now rewrite <- schedule_div_mod.
  - intros w' m' E. destruct (Hdone w' m' E) as [Hp ->].
    split; [now rewrite <- schedule_div_mod | reflexivity].
  - intros a seg b E Hq. rewrite Hj in E.
    apply firstn_stretch in E.
    apply (schedule_stretch n 0 a seg (b ++ skipn j (schedule 0 n)));
      [unfold K; lia | exact E | exact Hq].
Qed.

Lemma paced_fetches_witness :
  snd nineteen_fetches = Ok (3, 2)%nat /\
  pacing (fst nineteen_fetches) = cycles (19 / K) (19 mod K) /\
  2%nat = (1 + 19 mod K)%nat /\
  (length (repeat Request 18) <= K)%nat.
Proof.
  pose proof (paced_fetches Tolerant (empty_catalogue 19) 2 3
                (repeat "25544" 19)) as H.
  cbv zeta in H. fold nineteen_fetches in H.
  change (length (repeat "25544" 19)) with 19%nat in H.
  destruct H as [_ [_ [Hdone Hbound]]].
  assert (E : snd nineteen_fetches = Ok (3, 2)%nat) by (vm_compute; reflexivity).
  destruct (Hdone 3%nat 2%nat E) as [Hp Hm].
  split; [exact E |]. split; [exact Hp |]. split; [exact Hm |].
  apply (Hbound [] (repeat Request 18) [Pause 60; Request]).
  - vm_compute. reflexivity.
  - reflexivity.
Defined.

(** ** Claims on the error paths *)

Lemma MyError_call_two (a b : pyarg) :
  MyError_call [a; b]
  = TypeError
      "MyError.__init__() takes 2 positional arguments but 3 were given".
Proof. reflexivity. Qed.

(** A rejected login ends the run at once: the only event before the
    session is left is the login request. *)
Lemma login_rejected (v : variant) (siteCred : credentials) (srv : service) :
  let login := POST (uriBase ++ requestLogin) siteCred in
  status_code (srv 0%nat login) <> 200%Z ->
  run v siteCred srv
  = ([Send login; SessionExit],
     Raise (MyError_call
              [ArgResp (srv 0%nat login); ArgStr "POST fail on login"])).
Proof.
  intros login H. unfold run, session_block. fold login.
  unfold check_status.
  destruct (Z.eqb_spec (status_code (srv 0%nat login)) 200) as [E | _];
    [contradiction | reflexivity].
Qed.

Lemma login_rejected_no_fetch (v : variant) (siteCred : credentials)
    (srv : service) :
  status_code (srv 0%nat (POST (uriBase ++ requestLogin) siteCred)) <> 200%Z ->
  fetches (fst (run v siteCred srv)) = [] /\
  writes (fst (run v siteCred srv)) = [].
Proof.
  intros H. rewrite (login_rejected v siteCred srv H). split; reflexivity.
Qed.

(** A per-object request answered with another status than 200 ends the
    loop at once: nothing follows the print of the response. *)
Lemma failed_fetch_aborts (v : variant) (srv : service) (k : nat)
    (s : string) (rest : list string) (w m : nat) :
  let req := GET (omm_url v s) in
  status_code (srv k req) <> 200%Z ->
  fetch_loop v srv k (s :: rest) w m
  = ([Send req; Printed (str_response (srv k req))],
     Raise (MyError_call
              [ArgResp (srv k req);
               ArgStr ("GET fail for debris object " ++ s)%string])).
Proof.
  intros req H. rewrite fetch_loop_step. cbv zeta. fold req.
  destruct (Z.eqb_spec (status_code (srv k req)) 200) as [E | _];
    [contradiction | reflexivity].
Qed.

(** C5 (the script misses it): when the login is rejected no data
    request is sent, but the exception that ends the run is the
    [TypeError] of the call [MyError(resp, "POST fail on login")], which
    passes two arguments to a constructor that takes one; it is not a
    [MyError] and its text does not mention the login. *)
Theorem rejected_login_ends_in_TypeError (v : variant) :
  run v operator rejecting
  = ([Send (POST "https://www.space-track.org/ajaxauth/login" operator);
      SessionExit],
     Raise (TypeError
              "MyError.__init__() takes 2 positional arguments but 3 were given"))
  /\ fetches (fst (run v operator rejecting)) = []
  /\ contains "login" (message
       (TypeError
          "MyError.__init__() takes 2 positional arguments but 3 were given"))
     = false.
Proof.
  destruct v; repeat split; reflexivity.
Qed.

(** C6 (the script misses it): when the request for the elements of
    object 25544 is answered with status 404 the run stops at once,
    without a further request or row, but the exception that ends it is
    the [TypeError] of the call [MyError(resp, "GET fail for debris
    object " + s)]: its text does not contain the identifier. *)
Theorem failed_fetch_error_lacks_identifier (v : variant) :
  exists e,
    run v operator losing_25544
    = ([Send (POST "https://www.space-track.org/ajaxauth/login" operator);
        Send (GET (uriBase ++ requestCmdAction ++ requestFindDebris v));
        Send (GET (omm_url v "25544"));
        Printed "<Response [404]>";
        SessionExit],
       Raise e)
    /\ e = TypeError
             "MyError.__init__() takes 2 positional arguments but 3 were given"
    /\ contains "25544" (message e) = false.
Proof.
  eexists. destruct v; repeat split; reflexivity.
Qed.

(** ** Rows *)

Lemma cell_writes_app (t1 t2 : list event) :
  cell_writes (t1 ++ t2) = (cell_writes t1 ++ cell_writes t2)%list.
Proof.
  induction t1 as [| e t IH]; [reflexivity |].
  destruct e; cbn [app cell_writes]; now rewrite IH.
Qed.

Ltac step_record :=
  cbn [res_bind subscript bind lift emit ret fst snd app].

(** Processing a record follows [row_of]: it fails where [row_of]
    fails, and otherwise writes the cells of that row on the current
    line and moves to the next line. *)
Lemma process_record_spec (v : variant) (w : nat) (e : element) :
  match row_of v e with
  | Ok row =>
      exists t, process_record v w e = (t, Ok (w + 1)%nat) /\
                cell_writes t = line w row
  | Raise ex => snd (process_record v w e) = Raise ex
  | NonReal => snd (process_record v w e) = NonReal
  end.
Proof.
  destruct e as [id name epoch rev inc ecc mm raan argp ma].
  destruct v;
    unfold row_of, process_record, process_record_strict,
      process_record_tolerant, read, read_catalog_number, derive;
    cbn [NORAD_CAT_ID OBJECT_NAME EPOCH REV_AT_EPOCH INCLINATION
         ECCENTRICITY MEAN_MOTION RA_OF_ASC_NODE ARG_OF_PERICENTER
         MEAN_ANOMALY].
  - destruct name as [name |]; step_record; [| reflexivity].
    destruct epoch as [epoch |]; step_record; [| reflexivity].
    destruct mm as [mm |]; step_record; [| reflexivity].
    destruct ecc as [ecc |]; step_record; [| reflexivity].
    destruct id as [id |]; step_record; [| reflexivity].
    destruct (py_int id) as [n | ex | ]; step_record;
      [| reflexivity | reflexivity].
    destruct rev as [rev |]; step_record; [| reflexivity].
    destruct inc as [inc |]; step_record; [| reflexivity].
    destruct (derive_strict mm ecc) as [d | ex | ]; step_record;
      [| reflexivity | reflexivity].
    destruct raan as [raan |]; step_record; [| reflexivity].
    destruct argp as [argp |]; step_record; [| reflexivity].
    destruct ma as [ma |]; step_record; [| reflexivity].
    eexists. split; reflexivity.
  - step_record.
    destruct (catalog_number_or_zero id) as [n | ex | ]; step_record;
      [| reflexivity | reflexivity].
    destruct (derive_tolerant (get mm 0) (get ecc 0)) as [d | ex | ];
      step_record; [| reflexivity | reflexivity].
    eexists. split; reflexivity.
Qed.

(** A line has the sixteen columns 0 to 15, filled from [columns]. *)
Lemma line_columns (w : nat) (row : ReportRow) :
  map (fun c => (fst (fst c), snd (fst c))) (line w row)
  = map (fun col => (w, col)) (seq 0 16).
Proof. reflexivity. Qed.

Lemma line_values (w : nat) (row : ReportRow) :
  map snd (line w row) = columns row.
Proof. reflexivity. Qed.

(** The records of one response: as many lines as records, in order. *)
Lemma records_loop_spec (v : variant) (recs : list element) :
  forall w,
    match rows_of v recs with
    | Ok rows =>
        exists t, records_loop v w recs = (t, Ok (w + length recs)%nat) /\
                  cell_writes t = lines w rows /\
                  length rows = length recs
    | Raise ex => snd (records_loop v w recs) = Raise ex
    | NonReal => snd (records_loop v w recs) = NonReal
    end.
Proof.
  induction recs as [| e rest IH]; intros w.
  - cbn [rows_of records_loop length]. exists []. unfold ret.
    rewrite Nat.add_0_r. repeat split.
  - cbn [rows_of records_loop].
    pose proof (process_record_spec v w e) as He.
    destruct (row_of v e) as [row | ex | ]; cbn [res_bind].
    + destruct He as [t [Et Ht]].
      specialize (IH (w + 1)%nat).
      destruct (rows_of v rest) as [rows | ex | ]; cbn [res_bind].
      * destruct IH as [t' [Et' [Ht' Hlen]]].
        exists (t ++ t')%list. rewrite Et. cbn [bind]. rewrite Et'.
        split; [do 2 f_equal; cbn [length]; lia |].
        rewrite cell_writes_app, Ht, Ht'. cbn [lines length].
        replace (S w) with (w + 1)%nat by lia. now rewrite Hlen.
      * rewrite bind_snd, Et. exact IH.
      * rewrite bind_snd, Et. exact IH.
    + now rewrite bind_snd, He.
    + now rewrite bind_snd, He.
Qed.

Lemma rows_of_app (v : variant) (a b : list element) :
  rows_of v (a ++ b)
  = (ra <- rows_of v a ;; rb <- rows_of v b ;; Ok (ra ++ rb)%list)%res.
Proof.
  induction a as [| e a IH]; cbn [app rows_of].
  - cbn [res_bind app]. now destruct (rows_of v b).
  - destruct (row_of v e) as [row | ex | ]; cbn [res_bind]; try reflexivity.
    rewrite IH. destruct (rows_of v a) as [ra | ex | ]; cbn [res_bind];
      try reflexivity.
    now destruct (rows_of v b).
Qed.

Lemma lines_app (w : nat) (a b : list ReportRow) :
  lines w (a ++ b) = (lines w a ++ lines (w + length a) b)%list.
Proof.
  revert w. induction a as [| r a IH]; intros w; cbn [app lines length].
  - now rewrite Nat.add_0_r.
  - rewrite IH, <- app_assoc. do 3 f_equal. lia.
Qed.

Lemma cell_writes_local_turn (req : request) (tr t : list event) :
  cell_writes (Send req :: tr ++ t)
  = (cell_writes tr ++ cell_writes t)%list.
Proof. cbn [cell_writes]. apply cell_writes_app. Qed.

(** A completed fetch loop has written one line for every received
    record, in the order of the requests and of the records. *)
Lemma fetch_loop_rows (v : variant) (srv : service) (ids : list string) :
  forall k w m t w' m',
    fetch_loop v srv k ids w m = (t, Ok (w', m')) ->
    exists rows,
      rows_of v (fetched v srv k ids) = Ok rows /\
      length rows = length (fetched v srv k ids) /\
      cell_writes t = lines w rows /\
      w' = (w + length rows)%nat.
Proof.
  induction ids as [| s rest IH]; intros k w m t w' m' E.
  - cbn in E. injection E as <- <- _. exists []. cbn [fetched rows_of length lines cell_writes].
    repeat split. lia.
  - rewrite fetch_loop_step in E. cbv zeta in E. cbn [fetched].
    set (req := GET (omm_url v s)) in *.
    destruct (status_code (srv k req) =? 200)%Z; [| discriminate E].
    unfold json_loads in E.
    destruct (text (srv k req)) as [retData |]; [| discriminate E].
    pose proof (records_loop_spec v retData w) as Hr.
    destruct (records_loop v w retData) as [tr [w1 | ex | ]];
      [| discriminate E | discriminate E].
    rewrite rows_of_app.
    destruct (rows_of v retData) as [rows1 | ex | ];
      [| discriminate Hr | discriminate Hr].
    destruct Hr as [tr' [Etr [Hcells Hlen]]].
    injection Etr as <- ->. cbn [res_bind].
    destruct (18 <? m + 1)%nat.
    + destruct (fetch_loop v srv (S k) rest (w + length retData) 1)
        as [t' r] eqn:El.
      injection E as <- ->.
      destruct (IH _ _ _ _ _ _ El) as [rows2 [Er [Hl2 [Hc2 Hw]]]].
      rewrite Er. cbn [res_bind]. exists (rows1 ++ rows2)%list.
      split; [reflexivity |].
      rewrite !length_app, lines_app, cell_writes_local_turn, Hcells.
      cbn [cell_writes]. rewrite Hc2, Hlen, Hl2.
      repeat split. lia.
    + destruct (fetch_loop v srv (S k) rest (w + length retData) (m + 1))
        as [t' r] eqn:El.
      injection E as <- ->.
      destruct (IH _ _ _ _ _ _ El) as [rows2 [Er [Hl2 [Hc2 Hw]]]].
      rewrite Er. cbn [res_bind]. exists (rows1 ++ rows2)%list.
      split; [reflexivity |].
      rewrite !length_app, lines_app, cell_writes_local_turn, Hcells.
      rewrite Hc2, Hlen, Hl2.
      repeat split. lia.
Qed.

(** When every request is answered and every received record has a row,
    the loop runs to its end. *)
Lemma fetch_loop_completes (v : variant) (srv : service) (ids : list string) :
  forall k w m rows,
    answered v srv k ids ->
    rows_of v (fetched v srv k ids) = Ok rows ->
    exists t m',
      fetch_loop v srv k ids w m = (t, Ok ((w + length rows)%nat, m')).
Proof.
  induction ids as [| s rest IH]; intros k w m rows Ha Hr.
  - cbn in Hr. injection Hr as <-. exists [], m.
    cbn [fetch_loop length]. unfold ret. now rewrite Nat.add_0_r.
  - destruct Ha as [Hs [Ht Ha]]. cbn [fetched] in Hr.
    rewrite fetch_loop_step. cbv zeta. unfold json_loads.
    rewrite Hs. change (200 =? 200)%Z with true. cbv iota.
    destruct (text (srv k (GET (omm_url v s)))) as [retData |];
      [| contradiction].
    rewrite rows_of_app in Hr.
    pose proof (records_loop_spec v retData w) as Hl.
    destruct (rows_of v retData) as [rows1 | ex | ];
      [| discriminate Hr | discriminate Hr].
    cbn [res_bind] in Hr.
    destruct (rows_of v (fetched v srv (S k) rest)) as [rows2 | ex | ] eqn:E2;
      [| discriminate Hr | discriminate Hr].
    cbn [res_bind] in Hr. injection Hr as <-.
    destruct Hl as [tr [-> [_ Hlen]]].
    rewrite length_app, Nat.add_assoc, Hlen.
    destruct (18 <? m + 1)%nat.
    + destruct (IH (S k) (w + length retData)%nat 1%nat rows2 Ha E2)
        as [t' [m' ->]].
      eexists _, m'. reflexivity.
    + destruct (IH (S k) (w + length retData)%nat (m + 1)%nat rows2 Ha E2)
        as [t' [m' ->]].
      eexists _, m'. reflexivity.
Qed.

Lemma station_row_of : row_of Tolerant station = Ok station_row.
Proof.
  unfold row_of, read, read_catalog_number, station, get.
  cbn [NORAD_CAT_ID OBJECT_NAME EPOCH REV_AT_EPOCH INCLINATION
       ECCENTRICITY MEAN_MOTION RA_OF_ASC_NODE ARG_OF_PERICENTER
       MEAN_ANOMALY res_bind].
  change (catalog_number_or_zero (Some "25544")) with (@Ok Z 25544%Z).
  rewrite derive_pos by lra. reflexivity.
Qed.

Lemma station_row_of_strict : row_of Strict station = Ok station_row.
Proof.
  unfold row_of, read, read_catalog_number, station, subscript.
  cbn [NORAD_CAT_ID OBJECT_NAME EPOCH REV_AT_EPOCH INCLINATION
       ECCENTRICITY MEAN_MOTION RA_OF_ASC_NODE ARG_OF_PERICENTER
       MEAN_ANOMALY res_bind].
  change (py_int "25544") with (@Ok Z 25544%Z). cbn [res_bind].
  rewrite derive_pos by lra. reflexivity.
Qed.

(** ** Cells of a record or a loop that stops early *)

Ltac partial_exit :=
  intros _;
  solve [ exists 0%nat; split; [lia | reflexivity]
        | exists 3%nat; split; [lia | reflexivity]
        | exists 4%nat; split; [lia | reflexivity]
        | exists 7%nat; split; [lia | reflexivity]
        | exists 10%nat; split; [lia | reflexivity]
        | exists 11%nat; split; [lia | reflexivity]
        | exists 12%nat; split; [lia | reflexivity] ].

(** A record that is not processed to the end leaves fewer than
    sixteen cells, the first columns of its line. *)
Lemma process_record_partial (v : variant) (w : nat) (e : element) :
  (forall w', snd (process_record v w e) <> Ok w') ->
  exists j, (j < 16)%nat /\
            map position (cell_writes (fst (process_record v w e)))
            = map (fun col => (w, col)) (seq 0 j).
Proof.
  destruct e as [id name epoch rev inc ecc mm raan argp ma].
  destruct v;
    unfold process_record, process_record_strict, process_record_tolerant;
    cbn [NORAD_CAT_ID OBJECT_NAME EPOCH REV_AT_EPOCH INCLINATION
         ECCENTRICITY MEAN_MOTION RA_OF_ASC_NODE ARG_OF_PERICENTER
         MEAN_ANOMALY].
  - destruct name as [name |]; step_record; [| partial_exit].
    destruct epoch as [epoch |]; step_record; [| partial_exit].
    destruct mm as [mm |]; step_record; [| partial_exit].
    destruct ecc as [ecc |]; step_record; [| partial_exit].
    destruct id as [id |]; step_record; [| partial_exit].
    destruct (py_int id) as [n | ex | ]; step_record;
      [| partial_exit | partial_exit].
    destruct rev as [rev |]; step_record; [| partial_exit].
    destruct inc as [inc |]; step_record; [| partial_exit].
    destruct (derive_strict mm ecc) as [d | ex | ]; step_record;
      [| partial_exit | partial_exit].
    destruct raan as [raan |]; step_record; [| partial_exit].
    destruct argp as [argp |]; step_record; [| partial_exit].
    destruct ma as [ma |]; step_record; [| partial_exit].
    intros H. exfalso. now apply (H (w + 1)%nat).
  - step_record.
    destruct (catalog_number_or_zero id) as [n | ex | ]; step_record;
      [| partial_exit | partial_exit].
    destruct (derive_tolerant (get mm 0) (get ecc 0)) as [d | ex | ];
      step_record; [| partial_exit | partial_exit].
    intros H. exfalso. now apply (H (w + 1)%nat).
Qed.

Lemma leading_rows_all (v : variant) (recs : list element) :
  length (leading_rows v recs) = length recs ->
  rows_of v recs = Ok (leading_rows v recs).
Proof.
  induction recs as [| e rest IH]; cbn [leading_rows rows_of length];
    [reflexivity |].
  destruct (row_of v e) as [row | ex | ]; cbn [length res_bind];
    [| discriminate | discriminate].
  intros H. injection H as H. now rewrite (IH H).
Qed.

Lemma leading_rows_length (v : variant) (recs : list element) :
  (length (leading_rows v recs) <= length recs)%nat.
Proof.
  induction recs as [| e rest IH]; cbn [leading_rows length]; [lia |].
  destruct (row_of v e); cbn [length]; lia.
Qed.

(** The records of one response, whatever stops the loop: the lines of
    the leading rows, then the cells of the record that failed. *)
Lemma records_loop_cells (v : variant) (recs : list element) :
  forall w,
    exists partial j,
      (j < 16)%nat /\
      cell_writes (fst (records_loop v w recs))
      = (lines w (leading_rows v recs) ++ partial)%list /\
      map position partial
      = map (fun col => ((w + length (leading_rows v recs))%nat, col))
          (seq 0 j) /\
      ((length (leading_rows v recs) = length recs /\
        snd (records_loop v w recs) = Ok (w + length recs)%nat /\
        partial = []) \/
       ((length (leading_rows v recs) < length recs)%nat /\
        forall w', snd (records_loop v w recs) <> Ok w')).
Proof.
  induction recs as [| e rest IH]; intros w; cbn [records_loop leading_rows].
  - exists [], 0%nat. cbn [length lines app map seq fst snd ret cell_writes].
    split; [lia |]. split; [reflexivity |]. split; [reflexivity |].
    left. rewrite Nat.add_0_r. repeat split.
  - pose proof (process_record_spec v w e) as He.
    pose proof (process_record_partial v w e) as Hp.
    destruct (row_of v e) as [row | ex | ].
    + destruct He as [t [Et Ht]]. rewrite Et. cbn [bind].
      destruct (IH (w + 1)%nat) as [partial [j [Hj [Hc [Hpos Hend]]]]].
      destruct (records_loop v (w + 1) rest) as [t' r]. cbn [fst snd] in *.
      exists partial, j. split; [exact Hj |].
      rewrite cell_writes_app, Ht, Hc. cbn [lines length].
      replace (S w) with (w + 1)%nat by lia.
      split; [now rewrite app_assoc |].
      split.
      * rewrite Hpos. apply map_ext. intros col.
        apply f_equal2; [lia | reflexivity].
      * destruct Hend as [[Hl [Hr Hn]] | [Hl Hr]].
        -- left. split; [lia |]. split; [| exact Hn].
           rewrite Hr. apply f_equal. lia.
        -- right. split; [lia | exact Hr].
    + assert (Hf : forall w', snd (process_record v w e) <> Ok w')
        by (intros w' E; rewrite He in E; discriminate E).
      destruct (Hp Hf) as [j [Hj Hpos]].
      exists (cell_writes (fst (process_record v w e))), j.
      split; [exact Hj |]. rewrite bind_fst, bind_snd, He.
      cbn [lines length app]. rewrite app_nil_r, Nat.add_0_r.
      split; [reflexivity |]. split; [exact Hpos |].
      right. split; [lia | discriminate].
    + assert (Hf : forall w', snd (process_record v w e) <> Ok w')
        by (intros w' E; rewrite He in E; discriminate E).
      destruct (Hp Hf) as [j [Hj Hpos]].
      exists (cell_writes (fst (process_record v w e))), j.
      split; [exact Hj |]. rewrite bind_fst, bind_snd, He.
      cbn [lines length app]. rewrite app_nil_r, Nat.add_0_r.
      split; [reflexivity |]. split; [exact Hpos |].
      right. split; [lia | discriminate].
Qed.

(** The fetch loop, whatever stops it: the lines of the rows processed
    to the end, then the cells of the record that failed, if any. *)
Lemma fetch_loop_cells (v : variant) (srv : service) (ids : list string) :
  forall k w m,
    exists partial j,
      (j < 16)%nat /\
      cell_writes (fst (fetch_loop v srv k ids w m))
      = (lines w (processed_rows v srv k ids) ++ partial)%list /\
      map position partial
      = map (fun col =>
               ((w + length (processed_rows v srv k ids))%nat, col))
          (seq 0 j) /\
      (forall w' m',
          snd (fetch_loop v srv k ids w m) = Ok (w', m') ->
          partial = [] /\
          rows_of v (fetched v srv k ids) = Ok (processed_rows v srv k ids) /\
          w' = (w + length (processed_rows v srv k ids))%nat).
Proof.
  induction ids as [| s rest IH]; intros k w m.
  - exists [], 0%nat.
    cbn [fetch_loop processed_rows fetched rows_of ret fst snd
         cell_writes lines app map seq length].
    split; [lia |]. split; [reflexivity |]. split; [reflexivity |].
    intros w' m' E. injection E as <- _. repeat split. lia.
  - rewrite fetch_loop_step. cbv zeta. cbn [processed_rows fetched].
    set (req := GET (omm_url v s)). unfold json_loads.
    destruct (status_code (srv k req) =? 200)%Z.
    2:{ exists [], 0%nat. cbn [fst snd cell_writes lines app map seq].
        split; [lia |]. split; [reflexivity |]. split; [reflexivity |].
        intros ? ? E. discriminate E. }
    destruct (text (srv k req)) as [retData |].
    2:{ exists [], 0%nat. cbn [fst snd cell_writes lines app map seq].
        split; [lia |]. split; [reflexivity |]. split; [reflexivity |].
        intros ? ? E. discriminate E. }
    destruct (records_loop_cells v retData w)
      as [partial1 [j1 [Hj1 [Hc1 [Hpos1 Hend]]]]].
    destruct Hend as [[Hl [Hr Hn]] | [Hl Hr]].
    + rewrite Hl, Nat.eqb_refl. subst partial1. rewrite app_nil_r in Hc1.
      destruct (records_loop v w retData) as [tr r]. cbn [fst snd] in *.
      subst r.
      assert (Hjoin : forall m2,
        exists partial j,
          (j < 16)%nat /\
          cell_writes (fst (fetch_loop v srv (S k) rest
                              (w + length retData) m2))
          = (lines (w + length retData) (processed_rows v srv (S k) rest)
               ++ partial)%list /\
          map position partial
          = map (fun col =>
                   ((w + length (leading_rows v retData
                                   ++ processed_rows v srv (S k) rest))%nat,
                    col)) (seq 0 j) /\
          (forall w' m',
              snd (fetch_loop v srv (S k) rest (w + length retData) m2)
              = Ok (w', m') ->
              partial = [] /\
              rows_of v (retData ++ fetched v srv (S k) rest)
              = Ok (leading_rows v retData
                      ++ processed_rows v srv (S k) rest)%list /\
              w' = (w + length (leading_rows v retData
                                  ++ processed_rows v srv (S k) rest))%nat)).
      { intros m2.
        destruct (IH (S k) (w + length retData)%nat m2)
          as [partial [j [Hj [Hc [Hpos Hok]]]]].
        exists partial, j. split; [exact Hj |]. split; [exact Hc |].
        rewrite length_app, Hl. split.
        - rewrite Hpos. apply map_ext. intros col.
          apply f_equal2; [lia | reflexivity].
        - intros w' m' E. destruct (Hok w' m' E) as [Hp [Hrows Hw]].
          split; [exact Hp |]. split; [| lia].
          rewrite rows_of_app, (leading_rows_all v retData Hl).
          cbn [res_bind]. rewrite Hrows. reflexivity. }
      destruct (18 <? m + 1)%nat.
      * destruct (Hjoin 1%nat) as [partial [j [Hj [Hc [Hpos Hok]]]]].
        destruct (fetch_loop v srv (S k) rest (w + length retData) 1)
          as [t' r]. cbn [fst snd] in *.
        exists partial, j. split; [exact Hj |].
        rewrite cell_writes_local_turn, Hc1. cbn [cell_writes]. rewrite Hc.
        rewrite lines_app, Hl, app_assoc.
        split; [reflexivity |]. split; [exact Hpos | exact Hok].
      * destruct (Hjoin (m + 1)%nat) as [partial [j [Hj [Hc [Hpos Hok]]]]].
        destruct (fetch_loop v srv (S k) rest (w + length retData) (m + 1))
          as [t' r]. cbn [fst snd] in *.
        exists partial, j. split; [exact Hj |].
        rewrite cell_writes_local_turn, Hc1, Hc.
        rewrite lines_app, Hl, app_assoc.
        split; [reflexivity |]. split; [exact Hpos | exact Hok].
    + replace (length (leading_rows v retData) =? length retData)%nat
        with false by (symmetry; apply Nat.eqb_neq; lia).
      destruct (records_loop v w retData) as [tr [w1 | ex | ]];
        cbn [fst snd] in *.
      * exfalso. now apply (Hr w1).
      * exists partial1, j1. split; [exact Hj1 |].
        cbn [cell_writes]. split; [exact Hc1 |]. split; [exact Hpos1 |].
        intros ? ? E. discriminate E.
      * exists partial1, j1. split; [exact Hj1 |].
        cbn [cell_writes]. split; [exact Hc1 |]. split; [exact Hpos1 |].
        intros ? ? E. discriminate E.
Qed.

Lemma stalled_has_no_strict_row :
  row_of Strict stalled = Raise ZeroDivisionError.
Proof.
  unfold row_of, read, read_catalog_number, stalled, subscript.
  cbn [NORAD_CAT_ID OBJECT_NAME EPOCH REV_AT_EPOCH INCLINATION
       ECCENTRICITY MEAN_MOTION RA_OF_ASC_NODE ARG_OF_PERICENTER
       MEAN_ANOMALY res_bind].
  change (py_int "90001") with (@Ok Z 90001%Z). cbn [res_bind].
  rewrite derive_strict_zero. reflexivity.
Qed.

Lemma faltering_processed :
  processed_rows Strict faltering 2 ["25544"] = [station_row].
Proof.
  cbn [processed_rows].
  change (status_code (faltering 2%nat (GET (omm_url Strict "25544"))))
    with 200%Z.
  change (text (faltering 2%nat (GET (omm_url Strict "25544"))))
    with (Some [station; stalled]).
  change (200 =? 200)%Z with true. cbv iota.
  cbn [leading_rows].
  rewrite station_row_of_strict, stalled_has_no_strict_row. reflexivity.
Qed.

(** ** Claim on the report rows *)

(** C9: for every element record processed exactly one output row is
    emitted.  A record is processed when it has a row ([row_of]); then
    the script writes, on the current line and nowhere else, the 16
    columns 0 to 15 of that row, which carry CatalogId, Name, Epoch,
    RevolutionsAtEpoch, InclinationDeg, Eccentricity, MeanMotion,
    ApogeeAltitudeKm, PerigeeAltitudeKm, AverageAltitudeKm, RaanDeg,
    ArgPerigeeDeg, MeanAnomalyDeg, SemiMajorAxisKm, PeriodSeconds,
    VelocityKmPerSec in this order, and moves to the next line; a
    record is processed to the end only so.  Whatever stops a fetch
    loop, it has written one such line for each record processed before
    that, on consecutive rows and in the order of the requests and of
    the records, followed by fewer than 16 cells of the record that
    failed, if one did; a loop that runs to its end has processed every
    record it received. *)
Theorem one_row_per_record (v : variant) :
  (forall w e row,
      row_of v e = Ok row ->
      exists t, process_record v w e = (t, Ok (w + 1)%nat) /\
                cell_writes t = line w row) /\
  (forall w e t w',
      process_record v w e = (t, Ok w') ->
      exists row, row_of v e = Ok row /\
                  cell_writes t = line w row /\ w' = (w + 1)%nat) /\
  (forall srv k ids w m,
      exists partial j,
        (j < 16)%nat /\
        cell_writes (fst (fetch_loop v srv k ids w m))
        = (lines w (processed_rows v srv k ids) ++ partial)%list /\
        map position partial
        = map (fun col =>
                 ((w + length (processed_rows v srv k ids))%nat, col))
            (seq 0 j) /\
        (forall w' m',
            snd (fetch_loop v srv k ids w m) = Ok (w', m') ->
            partial = [] /\
            rows_of v (fetched v srv k ids)
            = Ok (processed_rows v srv k ids) /\
            w' = (w + length (processed_rows v srv k ids))%nat)) /\
  (forall row r,
      map position (line row r) = map (fun col => (row, col)) (seq 0 16)) /\
  (forall row r, map snd (line row r) = columns r).
Proof.
  split; [| split; [| split; [| split]]].
  - intros w e row Hrow. pose proof (process_record_spec v w e) as H.
    rewrite Hrow in H. exact H.
  - intros w e t w' E. pose proof (process_record_spec v w e) as H.
    destruct (row_of v e) as [row | ex | ].
    + destruct H as [t0 [Et Hc]]. rewrite Et in E.
      injection E as <- <-. exists row. repeat split. exact Hc.
    + rewrite E in H. discriminate H.
    + rewrite E in H. discriminate H.
  - intros srv k ids w m. apply fetch_loop_cells.
  - intros row r. apply line_columns.
  - intros row r. apply line_values.
Qed.

Lemma one_row_per_record_witness :
  (exists t, process_record Strict 3 station = (t, Ok 4%nat) /\
             cell_writes t = line 3 station_row) /\
  (exists t, process_record Tolerant 3 station = (t, Ok 4%nat) /\
             cell_writes t = line 3 station_row) /\
  (exists t m',
      fetch_loop Strict tracking 2 ["25544"] 3 1 = (t, Ok (4, m')%nat) /\
      cell_writes t = lines 3 [station_row]) /\
  (exists partial j,
      (j < 16)%nat /\
      cell_writes (fst (fetch_loop Strict faltering 2 ["25544"] 3 1))
      = (lines 3 [station_row] ++ partial)%list /\
      map position partial = map (fun col => (4%nat, col)) (seq 0 j)).
Proof.
  split; [| split; [| split]].
  - apply (proj1 (one_row_per_record Strict) 3%nat station station_row).
    exact station_row_of_strict.
  - apply (proj1 (one_row_per_record Tolerant) 3%nat station station_row).
    exact station_row_of.
  - assert (Ha : answered Strict tracking 2 ["25544"]).
    { cbn [answered]. repeat split. discriminate. }
    assert (Hr : rows_of Strict (fetched Strict tracking 2 ["25544"])
                 = Ok [station_row]).
    { change (fetched Strict tracking 2 ["25544"]) with [station].
      cbn [rows_of]. rewrite station_row_of_strict. reflexivity. }
    destruct (fetch_loop_completes Strict tracking ["25544"] 2 3 1
                [station_row] Ha Hr) as [t [m' E]].
    exists t, m'. split; [exact E |].
    destruct (proj1 (proj2 (proj2 (one_row_per_record Strict)))
                tracking 2%nat ["25544"] 3%nat 1%nat)
      as [partial [j [_ [Hc [_ Hok]]]]].
    rewrite E in Hc, Hok. cbn [fst snd] in Hc, Hok.
    destruct (Hok _ _ eq_refl) as [Hpart [Hrows _]]. subst partial.
    assert (Hp : processed_rows Strict tracking 2 ["25544"] = [station_row]).
    { rewrite Hr in Hrows. injection Hrows as Hp. symmetry. exact Hp. }
    rewrite Hp, app_nil_r in Hc. exact Hc.
  - destruct (proj1 (proj2 (proj2 (one_row_per_record Strict)))
                faltering 2%nat ["25544"] 3%nat 1%nat)
      as [partial [j [Hj [Hc [Hpos _]]]]].
    rewrite faltering_processed in Hc, Hpos.
    exists partial, j. split; [exact Hj |]. split; [exact Hc | exact Hpos].
Defined.

(** ** Further facts *)

(** The semi-major axis can be below [MRAD]: at 20 revolutions per day
    the orbit would lie inside the reference radius. *)
Lemma sma_below_MRAD_possible : 0 < sma_of 20 < MRAD.
Proof.
  assert (Hm : 0 < 20) by lra.
  pose proof (sma_of_pos _ Hm) as Ha. split; [exact Ha |].
  pose proof (smak_cube _ Hm) as Hc.
  assert (H : (sma_of 20 * 1000.0) ^ 3 < 6378137 ^ 3).
  { rewrite Hc. unfold GM, TPI86, PI.
    apply div_lt; [apply pow_lt; lra | simpl; lra]. }
  apply cube_lt_inv in H; [| lra | lra].
  unfold MRAD. lra.
Qed.

(** The helpers on text, on small inputs. *)
Example py_int_digits : py_int "25544" = Ok 25544%Z.
Proof. reflexivity. Qed.

Example py_int_signed : py_int "-7" = Ok (-7)%Z.
Proof. reflexivity. Qed.

Example py_int_rejects : py_int "12a" = Raise (ValueError "12a").
Proof. reflexivity. Qed.

Example contains_finds :
  contains "25544" "GET fail for debris object 25544" = true.
Proof. reflexivity. Qed.

(** What a one-argument call of the exception class would carry. *)
Example MyError_call_one :
  MyError_call [ArgStr "GET fail for debris object 25544"]
  = MyError
      "my exception was raised with arguments GET fail for debris object 25544".
Proof. reflexivity. Qed.

(** The tolerant list comprehension drops the entries without an
    identifier; the strict one raises at the first of them. *)
Example ids_tolerant_skips :
  debrisIds_of Tolerant [candidate "5"; bare_entry; candidate "7"]
  = Ok ["5"; "7"].
Proof. reflexivity. Qed.

Example ids_strict_raises :
  debrisIds_of Strict [candidate "5"; bare_entry; candidate "7"]
  = Raise (KeyError "NORAD_CAT_ID").
Proof. reflexivity. Qed.

(** * Further properties of the scripts *)

(** ** Orbital relations that the formulas imply *)

Lemma derived_of_smak (mmoti ecc : R) :
  smak (derived_of mmoti ecc) = sma_of mmoti * 1000.0.
Proof. reflexivity. Qed.

(** X1: for a positive mean motion the period written to the report is
    the length of the day, 86400 seconds, over the mean motion: the
    constants [GM] and [PI] cancel. *)
Theorem period_is_day_over_mean_motion (v : variant) (mmoti ecc : R) :
  0 < mmoti ->
  exists d, derive v mmoti ecc = Ok d /\ orbT d = 86400 / mmoti.
Proof.
  intros Hm. rewrite derive_pos by exact Hm.
  eexists. split; [reflexivity | now apply orbT_closed].
Qed.

Lemma period_is_day_over_mean_motion_witness :
  0 < 15.5 /\
  exists d, derive Strict 15.5 0.0003 = Ok d /\ orbT d = 86400 / 15.5.
Proof.
  split; [lra |].
  apply (period_is_day_over_mean_motion Strict 15.5 0.0003). lra.
Defined.

(** X2: Kepler's third law holds exactly between the mean motion and
    the semi-major axis in metres: the cube of the axis times the square
    of the angular rate [TPI86 * mmoti] is [GM]. *)
Theorem kepler_third_law (v : variant) (mmoti ecc : R) :
  0 < mmoti ->
  exists d, derive v mmoti ecc = Ok d /\
            smak d = sma d * 1000 /\
            smak d ^ 3 * (TPI86 * mmoti) ^ 2 = GM.
Proof.
  intros Hm. rewrite derive_pos by exact Hm.
  eexists. split; [reflexivity |].
  rewrite derived_of_smak. split.
  - unfold derived_of. cbn [sma]. lra.
  - rewrite smak_cube by exact Hm.
    assert (Hw : 0 < TPI86 * mmoti)
      by (apply Rmult_lt_0_compat; [apply TPI86_pos | exact Hm]).
    unfold Rdiv. rewrite Rmult_assoc, Rinv_l; [lra |].
    apply pow_nonzero. lra.
Qed.

Lemma kepler_third_law_witness :
  0 < 15.5 /\
  exists d, derive Tolerant 15.5 0.0003 = Ok d /\
            smak d = sma d * 1000 /\
            smak d ^ 3 * (TPI86 * 15.5) ^ 2 = GM.
Proof.
  split; [lra |].
  apply (kepler_third_law Tolerant 15.5 0.0003). lra.
Defined.

(** X3: velocity times period is the circumference of the circle whose
    radius is the semi-major axis in metres. *)
Theorem velocity_times_period (v : variant) (mmoti ecc : R) :
  0 < mmoti ->
  exists d, derive v mmoti ecc = Ok d /\
            orbV d * orbT d = 2 * PI * smak d.
Proof.
  intros Hm. rewrite derive_pos by exact Hm.
  eexists. split; [reflexivity |].
  pose proof (sma_of_pos mmoti Hm) as Ha. pose proof GM_pos as HG.
  unfold derived_of. cbn [orbV orbT smak].
  set (a := sma_of mmoti * 1000.0).
  assert (Hk : 0 < a) by (unfold a; lra).
  assert (H1 : 0 <= GM / a)
    by (left; apply Rdiv_lt_0_compat; assumption).
  assert (H2 : 0 <= a ^ 3 / GM)
    by (left; apply Rdiv_lt_0_compat; [apply pow_lt |]; assumption).
  replace (sqrt (GM / a) * (2.0 * PI * sqrt (a ^ 3 / GM)))
    with (2 * PI * (sqrt (GM / a) * sqrt (a ^ 3 / GM))) by lra.
  rewrite <- sqrt_mult by assumption.
  replace (GM / a * (a ^ 3 / GM)) with (a * a) by (field; lra).
  rewrite sqrt_square by lra. reflexivity.
Qed.

Lemma velocity_times_period_witness :
  0 < 15.5 /\
  exists d, derive Strict 15.5 0.0003 = Ok d /\
            orbV d * orbT d = 2 * PI * smak d.
Proof.
  split; [lra |].
  apply (velocity_times_period Strict 15.5 0.0003). lra.
Defined.

Lemma sma_of_decreasing (m1 m2 : R) :
  0 < m1 -> m1 < m2 -> sma_of m2 < sma_of m1.
Proof.
  intros H1 H12.
  assert (H2 : 0 < m2) by lra.
  pose proof (sma_of_pos m1 H1) as Ha1.
  pose proof (sma_of_pos m2 H2) as Ha2.
  pose proof TPI86_pos as HT. pose proof GM_pos as HG.
  assert (Hw1 : 0 < TPI86 * m1) by (apply Rmult_lt_0_compat; assumption).
  assert (Hw12 : TPI86 * m1 < TPI86 * m2)
    by (apply Rmult_lt_compat_l; assumption).
  assert (Hc : (sma_of m2 * 1000.0) ^ 3 < (sma_of m1 * 1000.0) ^ 3).
  { rewrite !smak_cube by assumption.
    unfold Rdiv. apply Rmult_lt_compat_l; [exact HG |].
    apply Rinv_lt_contravar.
    - apply Rmult_lt_0_compat; apply pow_lt; lra.
    - simpl. nra. }
  apply cube_lt_inv in Hc; lra.
Qed.

(** X4: a higher mean motion means a smaller orbit, a shorter period and
    a higher velocity, whatever the eccentricities. *)
Theorem faster_means_lower (v : variant) (m1 m2 ecc1 ecc2 : R) :
  0 < m1 -> m1 < m2 ->
  exists d1 d2,
    derive v m1 ecc1 = Ok d1 /\ derive v m2 ecc2 = Ok d2 /\
    sma d2 < sma d1 /\ orbT d2 < orbT d1 /\ orbV d1 < orbV d2.
Proof.
  intros H1 H12.
  assert (H2 : 0 < m2) by lra.
  rewrite !derive_pos by assumption.
  do 2 eexists. split; [reflexivity |]. split; [reflexivity |].
  pose proof (sma_of_decreasing m1 m2 H1 H12) as Hs.
  pose proof (sma_of_pos m2 H2) as Ha2. pose proof GM_pos as HG.
  split; [exact Hs |]. split.
  - rewrite !orbT_closed by assumption.
    unfold Rdiv. apply Rmult_lt_compat_l; [lra |].
    apply Rinv_lt_contravar; [nra | exact H12].
  - unfold derived_of. cbn [orbV].
    apply sqrt_lt_1_alt. split.
    + left. apply Rdiv_lt_0_compat; [exact HG | lra].
    + unfold Rdiv. apply Rmult_lt_compat_l; [exact HG |].
      apply Rinv_lt_contravar; [nra | lra].
Qed.

Lemma faster_means_lower_witness :
  0 < 2 /\ 2 < 15.5 /\
  exists d1 d2,
    derive Tolerant 2 0 = Ok d1 /\ derive Tolerant 15.5 0.0003 = Ok d2 /\
    sma d2 < sma d1 /\ orbT d2 < orbT d1 /\ orbV d1 < orbV d2.
Proof.
  split; [lra |]. split; [lra |].
  apply (faster_means_lower Tolerant 2 15.5 0 0.0003); lra.
Defined.

(** In the reading of floats as real numbers the strict derivation has
    a value exactly for a positive mean motion, the tolerant one exactly
    for one that is not negative.  (On doubles both also fail at the
    ends of the range; see [Binary64].) *)
Lemma derive_succeeds_iff (mmoti ecc : R) :
  ((exists d, derive Strict mmoti ecc = Ok d) <-> 0 < mmoti) /\
  ((exists d, derive Tolerant mmoti ecc = Ok d) <-> 0 <= mmoti).
Proof.
  split; split.
  - intros [d Hd].
    destruct (Rtotal_order mmoti 0) as [Hn | [Hz | Hp]]; [| | exact Hp].
    + rewrite derive_negative in Hd by exact Hn. discriminate Hd.
    + subst mmoti. rewrite derive_strict_zero in Hd. discriminate Hd.
  - intros Hp. exists (derived_of mmoti ecc). now apply derive_pos.
  - intros [d Hd].
    destruct (Rle_lt_dec 0 mmoti) as [Hp | Hn]; [exact Hp |].
    rewrite derive_negative in Hd by exact Hn. discriminate Hd.
  - intros [Hp | Hz].
    + exists (derived_of mmoti ecc). now apply derive_pos.
    + subst mmoti. exists (derived_zero ecc). apply derive_tolerant_zero.
Qed.

(** ** The two scripts on one record *)

Lemma derive_strict_then_tolerant (mmoti ecc : R) (d : derived) :
  derive_strict mmoti ecc = Ok d -> derive_tolerant mmoti ecc = Ok d.
Proof.
  intros Hd.
  assert (Hp : 0 < mmoti)
    by (apply (proj1 (derive_succeeds_iff mmoti ecc)); now exists d).
  pose proof (derive_pos Strict mmoti ecc Hp) as Hs.
  pose proof (derive_pos Tolerant mmoti ecc Hp) as Ht.
  cbn [derive] in Hs, Ht. congruence.
Qed.

(** X6: on every record that the strict script processes to the end,
    the tolerant script prints the same line and writes the same
    sixteen cells. *)
Theorem tolerant_agrees_with_strict (w : nat) (e : element)
    (t : list event) (w' : nat) :
  process_record Strict w e = (t, Ok w') ->
  process_record Tolerant w e = (t, Ok w').
Proof.
  destruct e as [id name epoch rev inc ecc mm raan argp ma].
  unfold process_record, process_record_strict, process_record_tolerant.
  cbn [NORAD_CAT_ID OBJECT_NAME EPOCH REV_AT_EPOCH INCLINATION
       ECCENTRICITY MEAN_MOTION RA_OF_ASC_NODE ARG_OF_PERICENTER
       MEAN_ANOMALY].
  destruct name as [name |]; step_record; [| discriminate].
  destruct epoch as [epoch |]; step_record; [| discriminate].
  destruct mm as [mm |]; step_record; [| discriminate].
  destruct ecc as [ecc |]; step_record; [| discriminate].
  destruct id as [id |]; step_record; [| discriminate].
  cbn [catalog_number_or_zero get].
  destruct (py_int id) as [n | ex | ]; step_record;
    [| discriminate | discriminate].
  destruct rev as [rev |]; step_record; [| discriminate].
  destruct inc as [inc |]; step_record; [| discriminate].
  destruct (derive_strict mm ecc) as [d | ex | ] eqn:Hd; step_record;
    [| discriminate | discriminate].
  rewrite (derive_strict_then_tolerant mm ecc d Hd). step_record.
  destruct raan as [raan |]; step_record; [| discriminate].
  destruct argp as [argp |]; step_record; [| discriminate].
  destruct ma as [ma |]; step_record; [| discriminate].
  cbn [get]. intros E. exact E.
Qed.

Lemma tolerant_agrees_with_strict_witness :
  exists t,
    process_record Strict 3 station = (t, Ok 4%nat) /\
    process_record Tolerant 3 station = (t, Ok 4%nat).
Proof.
  pose proof (process_record_spec Strict 3 station) as H.
  rewrite station_row_of_strict in H. destruct H as [t [E _]].
  exists t. split; [exact E |].
  exact (tolerant_agrees_with_strict 3 station t 4 E).
Defined.

(** ** The exceptions that can end a run *)

Lemma bind_raises {A B : Type} (P : pyexn -> bool) (m : M A) (k : A -> M B) :
  raises_only P (snd m) ->
  (forall a, raises_only P (snd (k a))) ->
  raises_only P (snd (bind m k)).
Proof.
  intros Hm Hk. rewrite bind_snd.
  destruct (snd m) as [a | ex | ]; [apply Hk | exact Hm | exact I].
Qed.

Lemma res_bind_raises {A B : Type} (P : pyexn -> bool) (r : res A)
    (k : A -> res B) :
  raises_only P r ->
  (forall a, raises_only P (k a)) ->
  raises_only P (res_bind r k).
Proof.
  intros Hr Hk. destruct r as [a | ex | ]; [apply Hk | exact Hr | exact I].
Qed.

Lemma py_int_raises (v : variant) (s : string) :
  raises_only (may_end v) (py_int s).
Proof.
  assert (H : forall sign body, raises_only (may_end v) (signed_digits sign s body)).
  { intros sign body. unfold signed_digits.
    destruct body; [reflexivity |].
    destruct (digits_value 0 (String a body)); [exact I | reflexivity]. }
  unfold py_int. destruct s as [| c r]; [apply H |].
  destruct c as [[] [] [] [] [] [] [] []]; apply H.
Qed.

Lemma subscript_raises {A : Type} (key : string) (field : option A) :
  raises_only (may_end Strict) (subscript key field).
Proof. destruct field; [exact I | reflexivity]. Qed.

Lemma derive_raises (v : variant) (mmoti ecc : R) :
  raises_only (may_end v) (derive v mmoti ecc).
Proof.
  destruct (Rtotal_order mmoti 0) as [Hn | [Hz | Hp]].
  - rewrite derive_negative by exact Hn. exact I.
  - subst mmoti. destruct v.
    + rewrite derive_strict_zero. reflexivity.
    + unfold derive. rewrite derive_tolerant_zero. exact I.
  - rewrite derive_pos by exact Hp. exact I.
Qed.

Lemma catalog_number_raises (field : option string) :
  raises_only (may_end Tolerant) (catalog_number_or_zero field).
Proof. destruct field; [apply py_int_raises | exact I]. Qed.

Create HintDb raises.
#[local] Hint Resolve py_int_raises subscript_raises catalog_number_raises
  : raises.
#[local] Hint Extern 1 (raises_only _ (snd (lift (derive_strict _ _)))) =>
  apply (derive_raises Strict) : raises.
#[local] Hint Extern 1 (raises_only _ (snd (lift (derive_tolerant _ _)))) =>
  apply (derive_raises Tolerant) : raises.
#[local] Hint Extern 1 (raises_only _ (snd (emit _))) => exact I : raises.
#[local] Hint Extern 1 (raises_only _ (snd (ret _))) => exact I : raises.
#[local] Hint Extern 1 (raises_only _ (snd (lift _))) =>
  cbn [snd lift] : raises.

Ltac raise_steps :=
  repeat first
    [ apply bind_raises; [solve [auto with raises] | intros ? ]
    | progress cbv zeta ];
  auto with raises.

Lemma process_record_raises (v : variant) (w : nat) (e : element) :
  raises_only (may_end v) (snd (process_record v w e)).
Proof.
  destruct v; unfold process_record, process_record_strict,
    process_record_tolerant; raise_steps.
Qed.

Lemma records_loop_raises (v : variant) (recs : list element) (w : nat) :
  raises_only (may_end v) (snd (records_loop v w recs)).
Proof.
  revert w. induction recs as [| e rest IH]; intros w; cbn [records_loop].
  - exact I.
  - apply bind_raises; [apply process_record_raises | intros a; apply IH].
Qed.

Lemma check_status_raises (v : variant) (announce : bool) (resp : response)
    (why : string) :
  raises_only (may_end v) (snd (check_status announce resp why)).
Proof.
  unfold check_status.
  destruct (status_code resp =? 200)%Z; [exact I |].
  destruct announce; reflexivity.
Qed.

Lemma json_loads_raises (v : variant) (resp : response) :
  raises_only (may_end v) (json_loads resp).
Proof.
  unfold json_loads. destruct (text resp); [exact I | reflexivity].
Qed.

Lemma fetch_loop_raises (v : variant) (srv : service) (ids : list string) :
  forall k w m, raises_only (may_end v) (snd (fetch_loop v srv k ids w m)).
Proof.
  induction ids as [| s rest IH]; intros k w m; cbn [fetch_loop].
  - exact I.
  - apply bind_raises; [exact I | intros _]. cbv zeta.
    apply bind_raises; [apply check_status_raises | intros _].
    apply bind_raises; [apply json_loads_raises | intros retData].
    apply bind_raises; [apply records_loop_raises | intros w1].
    destruct (18 <? m + 1)%nat.
    + apply bind_raises; [exact I | intros _].
      apply bind_raises; [exact I | intros _]. apply IH.
    + apply IH.
Qed.

Lemma debrisIds_of_raises (v : variant) (retData : list element) :
  raises_only (may_end v) (debrisIds_of v retData).
Proof.
  destruct v; cbn [debrisIds_of]; [| exact I].
  induction retData as [| e rest IH]; cbn [ids_strict]; [exact I |].
  apply res_bind_raises; [apply subscript_raises | intros s].
  apply res_bind_raises; [exact IH | intros l; exact I].
Qed.

Lemma session_block_raises (v : variant) (siteCred : credentials)
    (srv : service) :
  raises_only (may_end v) (snd (session_block v siteCred srv)).
Proof.
  unfold session_block. cbv zeta.
  apply bind_raises; [exact I | intros _].
  apply bind_raises; [apply check_status_raises | intros _].
  apply bind_raises; [exact I | intros _].
  apply bind_raises; [apply check_status_raises | intros _].
  apply bind_raises; [apply json_loads_raises | intros retData].
  apply bind_raises; [apply debrisIds_of_raises | intros ids].
  apply bind_raises; [apply fetch_loop_raises | intros _]. exact I.
Qed.

Lemma run_snd (v : variant) (siteCred : credentials) (srv : service) :
  snd (run v siteCred srv)
  = match snd (session_block v siteCred srv) with
    | Ok _ => Ok tt
    | Raise ex => Raise ex
    | NonReal => NonReal
    end.
Proof.
  unfold run. destruct (session_block v siteCred srv) as [t [[] | ex | ]];
    reflexivity.
Qed.

(** Every exception that ends a run is one of those that [may_end]
    lists for the script. *)
Lemma run_may_end (v : variant) (siteCred : credentials) (srv : service)
    (ex : pyexn) :
  snd (run v siteCred srv) = Raise ex -> may_end v ex = true.
Proof.
  rewrite run_snd. pose proof (session_block_raises v siteCred srv) as H.
  destruct (snd (session_block v siteCred srv)) as [a | ex' | ];
    [discriminate | | discriminate].
  intros E. injection E as <-. exact H.
Qed.

(** X7: the exception class [MyError] of the scripts never ends a run:
    every [raise MyError(...)] passes two arguments to a constructor
    that takes one, and nothing else constructs it. *)
Theorem MyError_never_raised (v : variant) (siteCred : credentials)
    (srv : service) :
  raises_only (fun ex => negb (is_MyError ex)) (snd (run v siteCred srv)).
Proof.
  pose proof (run_may_end v siteCred srv) as H.
  destruct (snd (run v siteCred srv)) as [a | ex | ]; [exact I | | exact I].
  specialize (H ex eq_refl). cbn [raises_only].
  destruct ex; try reflexivity. discriminate H.
Qed.

(** X8: a run of the tolerant script never ends in [KeyError]: it reads
    every field with [get]. *)
Theorem tolerant_never_KeyError (siteCred : credentials) (srv : service) :
  raises_only (fun ex => negb (is_KeyError ex))
    (snd (run Tolerant siteCred srv)).
Proof.
  pose proof (run_may_end Tolerant siteCred srv) as H.
  destruct (snd (run Tolerant siteCred srv)) as [a | ex | ];
    [exact I | | exact I].
  specialize (H ex eq_refl). cbn [raises_only].
  destruct ex; try reflexivity. discriminate H.
Qed.

(** ** The candidate list *)

Lemma ids_tolerant_json_length {A : Type} (entries : list (id_field A)) :
  (length (ids_tolerant_json entries) <= length entries)%nat.
Proof.
  induction entries as [| f rest IH]; cbn [ids_tolerant_json length]; [lia |].
  destruct f; cbn [length]; lia.
Qed.

Lemma ids_strict_json_present {A : Type} (entries : list (id_field A)) :
  existsb is_absent entries = false ->
  ids_strict_json entries = Ok (map subscripted entries).
Proof.
  induction entries as [| f rest IH]; cbn [existsb ids_strict_json map];
    [reflexivity |].
  destruct f; cbn [is_absent orb subscripted]; [discriminate | |];
    intros H; rewrite (IH H); reflexivity.
Qed.

(** X9: the two list comprehensions on the decoded candidate list,
    entry by entry absent key, null or value.  The strict one raises
    [KeyError] exactly when some key is absent, and otherwise keeps one
    item per entry, a null as [None].  The tolerant one keeps exactly
    the values that are not null, in the order of the list.  When no key
    is absent and no value is null the two lists are the same; when a
    value is null the tolerant list is shorter than the candidate list,
    while the strict list, if no key is absent, still holds the [None].
    On the records of the model, which have no null, they are
    [ids_strict] and [ids_tolerant]. *)
Theorem candidate_identifiers (A : Type) (entries : list (id_field A)) :
  (existsb is_absent entries = true ->
   ids_strict_json entries = Raise (KeyError "NORAD_CAT_ID")) /\
  (existsb is_absent entries = false ->
   ids_strict_json entries = Ok (map subscripted entries) /\
   length (map subscripted entries) = length entries) /\
  map IdValue (ids_tolerant_json entries) = filter is_value entries /\
  (existsb is_absent entries = false ->
   existsb is_null entries = false ->
   ids_strict_json entries = Ok (map Some (ids_tolerant_json entries)) /\
   length (ids_tolerant_json entries) = length entries) /\
  (existsb is_null entries = true ->
   (length (ids_tolerant_json entries) < length entries)%nat /\
   (existsb is_absent entries = false ->
    exists l, ids_strict_json entries = Ok l /\ In None l)) /\
  (forall retData : list element,
      ids_tolerant retData = ids_tolerant_json (map id_field_of retData) /\
      match ids_strict retData with
      | Ok l =>
          ids_strict_json (map id_field_of retData) = Ok (map Some l)
      | Raise ex => ids_strict_json (map id_field_of retData) = Raise ex
      | NonReal => False
      end).
Proof.
  split; [| split; [| split; [| split; [| split]]]].
  - induction entries as [| f rest IH]; cbn [existsb ids_strict_json];
      [discriminate |].
    destruct f; cbn [is_absent orb]; [reflexivity | |];
      intros H; rewrite (IH H); reflexivity.
  - intros H. split; [now apply ids_strict_json_present | apply length_map].
  - induction entries as [| f rest IH]; cbn [ids_tolerant_json map filter];
      [reflexivity |].
    destruct f; cbn [is_value map]; now rewrite IH.
  - intros Ha Hn. rewrite (ids_strict_json_present entries Ha).
    induction entries as [| f rest IH];
      cbn [existsb ids_tolerant_json map length] in *; [split; reflexivity |].
    destruct f; cbn [is_absent is_null orb subscripted map length] in *;
      [discriminate Ha | discriminate Hn |].
    destruct (IH Ha Hn) as [E El]. injection E as E.
    split; [now rewrite E | now rewrite El].
  - intros Hn. split.
    + induction entries as [| f rest IH];
        cbn [existsb ids_tolerant_json length] in *; [discriminate |].
      pose proof (ids_tolerant_json_length rest) as Hle.
      destruct f; cbn [is_null orb length] in *; try lia.
      specialize (IH Hn). lia.
    + intros Ha. rewrite (ids_strict_json_present entries Ha).
      eexists. split; [reflexivity |].
      clear Ha. induction entries as [| f rest IH];
        cbn [existsb map] in *; [discriminate |].
      destruct f; cbn [is_null orb subscripted] in *.
      * right. now apply IH.
      * now left.
      * right. now apply IH.
  - intros retData. unfold id_field_of. split.
    + induction retData as [| e rest IH]; cbn [ids_tolerant map];
        [reflexivity |].
      destruct (NORAD_CAT_ID e); cbn [ids_tolerant_json]; now rewrite IH.
    + induction retData as [| e rest IH]; cbn [ids_strict map];
        [reflexivity |].
      destruct (NORAD_CAT_ID e) as [s |];
        cbn [subscript res_bind ids_strict_json]; [| reflexivity].
      destruct (ids_strict rest) as [l | ex | ]; cbn [res_bind];
        [| | contradiction].
      * rewrite IH. reflexivity.
      * rewrite IH. reflexivity.
Qed.

Lemma candidate_identifiers_witness :
  ids_strict_json [IdValue "5"; IdAbsent; IdNull]
  = Raise (KeyError "NORAD_CAT_ID") /\
  (ids_strict_json [IdValue "5"; IdNull; IdValue "7"]
   = Ok [Some "5"; None; Some "7"] /\
   length (map subscripted [IdValue "5"; IdNull; IdValue "7"]) = 3%nat) /\
  (ids_strict_json [IdValue "5"; IdValue "7"]
   = Ok (map Some (ids_tolerant_json [IdValue "5"; IdValue "7"])) /\
   length (ids_tolerant_json [IdValue "5"; IdValue "7"]) = 2%nat) /\
  (length (ids_tolerant_json [IdValue "5"; IdNull; IdValue "7"]) < 3)%nat.
Proof.
  split; [| split; [| split]].
  - apply (proj1 (candidate_identifiers string
                    [IdValue "5"; IdAbsent; IdNull])).
    reflexivity.
  - apply (proj1 (proj2 (candidate_identifiers string
                           [IdValue "5"; IdNull; IdValue "7"]))).
    reflexivity.
  - apply (proj1 (proj2 (proj2 (proj2 (candidate_identifiers string
                                         [IdValue "5"; IdValue "7"])))));
      reflexivity.
  - apply (proj1 (proj2 (proj2 (proj2 (proj2
             (candidate_identifiers string
                [IdValue "5"; IdNull; IdValue "7"])))))).
    reflexivity.
Defined.

(** ** A rejected candidate listing *)

(** X10: when the login is accepted and the candidate listing is
    answered with another status than 200, the run prints the response
    and stops before any per-object request or write; the exception is
    the [TypeError] of the two-argument call of [MyError]. *)
Theorem listing_rejected (v : variant) (siteCred : credentials)
    (srv : service) :
  status_code (srv 0%nat (login_request siteCred)) = 200%Z ->
  status_code (srv 1%nat (find_request v)) <> 200%Z ->
  run v siteCred srv
  = ([Send (login_request siteCred); Send (find_request v);
      Printed (str_response (srv 1%nat (find_request v))); SessionExit],
     Raise (TypeError
              "MyError.__init__() takes 2 positional arguments but 3 were given")).
Proof.
  intros Hl Hf. unfold run, session_block.
  fold (login_request siteCred). fold (find_request v). cbv zeta.
  unfold check_status. rewrite Hl. change (200 =? 200)%Z with true.
  destruct (Z.eqb_spec (status_code (srv 1%nat (find_request v))) 200)
    as [E | _]; [contradiction | reflexivity].
Qed.

Lemma listing_rejected_witness :
  run Strict operator listing_down
  = ([Send (login_request operator); Send (find_request Strict);
      Printed (str_response (listing_down 1%nat (find_request Strict)));
      SessionExit],
     Raise (TypeError
              "MyError.__init__() takes 2 positional arguments but 3 were given")).
Proof.
  apply (listing_rejected Strict operator listing_down).
  - reflexivity.
  - discriminate.
Defined.

(** ** The shape of a run *)

Lemma local_is_body (t : list event) :
  forallb is_local t = true -> forallb is_body t = true.
Proof.
  induction t as [| e t IH]; [reflexivity |].
  cbn [forallb]. intros H. apply andb_prop in H as [He Ht].
  rewrite (IH Ht), andb_true_r. destruct e; try discriminate; reflexivity.
Qed.

Lemma bind_body {A B : Type} (m : M A) (k : A -> M B) :
  forallb is_body (fst m) = true ->
  (forall a, forallb is_body (fst (k a)) = true) ->
  forallb is_body (fst (bind m k)) = true.
Proof.
  intros Hm Hk. rewrite bind_fst, forallb_app, Hm. cbn [andb].
  destruct (snd m); [apply Hk | reflexivity | reflexivity].
Qed.

Lemma check_status_body (announce : bool) (resp : response) (why : string) :
  forallb is_body (fst (check_status announce resp why)) = true.
Proof.
  unfold check_status. destruct (status_code resp =? 200)%Z; [reflexivity |].
  destruct announce; reflexivity.
Qed.

Lemma fetch_loop_body (v : variant) (srv : service) (ids : list string) :
  forall k w m, forallb is_body (fst (fetch_loop v srv k ids w m)) = true.
Proof.
  induction ids as [| s rest IH]; intros k w m; cbn [fetch_loop].
  - reflexivity.
  - apply bind_body; [reflexivity | intros _]. cbv zeta.
    apply bind_body; [apply check_status_body | intros _].
    apply bind_body; [reflexivity | intros retData].
    apply bind_body;
      [apply local_is_body, records_loop_local | intros w1].
    destruct (18 <? m + 1)%nat.
    + apply bind_body; [reflexivity | intros _].
      apply bind_body; [reflexivity | intros _]. apply IH.
    + apply IH.
Qed.

Lemma session_block_body (v : variant) (siteCred : credentials)
    (srv : service) :
  forallb is_body (fst (session_block v siteCred srv)) = true.
Proof.
  unfold session_block. cbv zeta.
  apply bind_body; [reflexivity | intros _].
  apply bind_body; [apply check_status_body | intros _].
  apply bind_body; [reflexivity | intros _].
  apply bind_body; [apply check_status_body | intros _].
  apply bind_body; [reflexivity | intros retData].
  apply bind_body; [reflexivity | intros ids].
  apply bind_body; [apply fetch_loop_body | intros _]. reflexivity.
Qed.

Lemma body_has_no_close (body : list event) :
  forallb is_body body = true -> ~ In WorkbookClose body.
Proof.
  intros H Hin. rewrite forallb_forall in H.
  specialize (H _ Hin). discriminate H.
Qed.

(** X11: every run leaves the session exactly once, after its last
    request, print of the block and write; the session and the workbook
    are closed afterwards only when the block ended without an
    exception, so a run that fails never closes the workbook. *)
Theorem run_shape (v : variant) (siteCred : credentials) (srv : service) :
  exists body,
    forallb is_body body = true /\
    ((snd (run v siteCred srv) = Ok tt /\
      fst (run v siteCred srv)
      = (body ++ [SessionExit; SessionClose; WorkbookClose;
                  Printed "✅ Completed collecting debris data"])%list) \/
     (snd (run v siteCred srv) <> Ok tt /\
      fst (run v siteCred srv) = (body ++ [SessionExit])%list)) /\
    (In WorkbookClose (fst (run v siteCred srv))
     <-> snd (run v siteCred srv) = Ok tt).
Proof.
  pose proof (session_block_body v siteCred srv) as Hb.
  unfold run.
  destruct (session_block v siteCred srv) as [body r]. cbn [fst] in Hb.
  exists body. split; [exact Hb |].
  pose proof (body_has_no_close body Hb) as Hn.
  destruct r as [[] | ex | ]; cbn [fst snd].
  - split; [left; split; reflexivity |].
    split; [reflexivity |]. intros _. apply in_or_app. right.
    cbn. tauto.
  - split; [right; split; [discriminate | reflexivity] |].
    split; [| discriminate]. intros Hin. apply in_app_or in Hin as [H | H].
    + contradiction.
    + cbn in H. destruct H as [H | []]. discriminate H.
  - split; [right; split; [discriminate | reflexivity] |].
    split; [| discriminate]. intros Hin. apply in_app_or in Hin as [H | H].
    + contradiction.
    + cbn in H. destruct H as [H | []]. discriminate H.
Qed.

(** ** The requests of a run *)

Lemma session_block_step (v : variant) (siteCred : credentials)
    (srv : service) :
  let login := login_request siteCred in
  let find := find_request v in
  session_block v siteCred srv
  = if (status_code (srv 0%nat login) =? 200)%Z then
      if (status_code (srv 1%nat find) =? 200)%Z then
        match text (srv 1%nat find) with
        | Some retData =>
            match debrisIds_of v retData with
            | Ok ids =>
                let (t', r) := fetch_loop v srv 2 ids 3 1 in
                (Send login :: Send find :: t',
                 match r with
                 | Ok _ => Ok tt
                 | Raise ex => Raise ex
                 | NonReal => NonReal
                 end)
            | Raise ex => ([Send login; Send find], Raise ex)
            | NonReal => ([Send login; Send find], NonReal)
            end
        | None => ([Send login; Send find], Raise JSONDecodeError)
        end
      else
        ([Send login; Send find; Printed (str_response (srv 1%nat find))],
         Raise (MyError_call
                  [ArgResp (srv 1%nat find);
                   ArgStr "GET fail when requesting debris data"]))
    else
      ([Send login],
       Raise (MyError_call
                [ArgResp (srv 0%nat login); ArgStr "POST fail on login"])).
Proof.
  intros login find. unfold session_block.
  fold (login_request siteCred). fold login.
  fold (find_request v). fold find. cbv zeta.
  unfold check_status, json_loads.
  destruct (status_code (srv 0%nat login) =? 200)%Z; [| reflexivity].
  destruct (status_code (srv 1%nat find) =? 200)%Z; [| reflexivity].
  destruct (text (srv 1%nat find)) as [retData |]; [| reflexivity].
  cbn [bind emit ret lift app].
  destruct (debrisIds_of v retData) as [ids | ex | ];
    [| reflexivity | reflexivity].
  destruct (fetch_loop v srv 2 ids 3 1) as [t' [[w m] | ex | ]];
    cbn [bind ret app]; rewrite ?app_nil_r; reflexivity.
Qed.

Lemma requests_app (t1 t2 : list event) :
  requests (t1 ++ t2) = (requests t1 ++ requests t2)%list.
Proof.
  induction t1 as [| e t IH]; [reflexivity |].
  destruct e; cbn [app requests]; now rewrite IH.
Qed.

Lemma requests_local (t : list event) :
  forallb is_local t = true -> requests t = [].
Proof.
  induction t as [| e t IH]; [reflexivity |].
  destruct e; cbn; try discriminate; exact IH.
Qed.

Lemma requests_turn (req : request) (tr t : list event) :
  forallb is_local tr = true ->
  requests (Send req :: tr ++ t) = req :: requests t.
Proof.
  intros Hl. cbn [requests]. now rewrite requests_app, requests_local.
Qed.

(** The loop requests the identifiers in order, each once, up to the
    point where it stops. *)
Lemma fetch_loop_requests (v : variant) (srv : service) (ids : list string) :
  forall k w m,
    (exists j, requests (fst (fetch_loop v srv k ids w m))
               = map (fun s => GET (omm_url v s)) (firstn j ids)) /\
    (forall r, snd (fetch_loop v srv k ids w m) = Ok r ->
               requests (fst (fetch_loop v srv k ids w m))
               = map (fun s => GET (omm_url v s)) ids).
Proof.
  induction ids as [| s rest IH]; intros k w m.
  - cbn [fetch_loop ret fst snd requests map]. split.
    + exists 0%nat. reflexivity.
    + reflexivity.
  - rewrite fetch_loop_step. cbv zeta.
    set (req := GET (omm_url v s)).
    destruct (status_code (srv k req) =? 200)%Z.
    2:{ split; [exists 1%nat; reflexivity | intros ? E; discriminate E]. }
    destruct (json_loads (srv k req)) as [retData | e | ].
    2:{ split; [exists 1%nat; reflexivity | intros ? E; discriminate E]. }
    2:{ split; [exists 1%nat; reflexivity | intros ? E; discriminate E]. }
    pose proof (records_loop_local v retData w) as Hl.
    destruct (records_loop v w retData) as [tr [w1 | e | ]]; cbn [fst] in Hl.
    2:{ split; [| intros ? E; discriminate E].
        exists 1%nat. cbn [fst]. rewrite <- (app_nil_r tr).
        now rewrite requests_turn. }
    2:{ split; [| intros ? E; discriminate E].
        exists 1%nat. cbn [fst]. rewrite <- (app_nil_r tr).
        now rewrite requests_turn. }
    destruct (18 <? m + 1)%nat.
    + destruct (IH (S k) w1 1%nat) as [[j Hj] Hdone].
      destruct (fetch_loop v srv (S k) rest w1 1) as [t' r].
      cbn [fst snd] in *. rewrite requests_turn by exact Hl.
      cbn [requests]. split.
      * exists (S j). cbn [firstn map]. now rewrite Hj.
      * intros r0 E. cbn [map]. now rewrite (Hdone r0 E).
    + destruct (IH (S k) w1 (m + 1)%nat) as [[j Hj] Hdone].
      destruct (fetch_loop v srv (S k) rest w1 (m + 1)) as [t' r].
      cbn [fst snd] in *. rewrite requests_turn by exact Hl. split.
      * exists (S j). cbn [firstn map]. now rewrite Hj.
      * intros r0 E. cbn [map]. now rewrite (Hdone r0 E).
Qed.

Lemma run_fst (v : variant) (siteCred : credentials) (srv : service) :
  requests (fst (run v siteCred srv))
  = requests (fst (session_block v siteCred srv)).
Proof.
  unfold run.
  destruct (session_block v siteCred srv) as [t [[] | ex | ]]; cbn [fst];
    rewrite requests_app; cbn [requests]; apply app_nil_r.
Qed.

(** X12: the requests of every run are an initial part of: the login,
    the candidate listing, then one request per item of the identifier
    list that the listing yields, in the order of that list; a run that
    completes has sent exactly these.  No request goes to an identifier
    outside the list and none is sent out of order; an identifier that
    the list holds several times is requested as many times. *)
Theorem requests_follow_the_listing (v : variant) (siteCred : credentials)
    (srv : service) :
  (exists j, requests (fst (run v siteCred srv))
             = firstn j (planned v siteCred srv)) /\
  (snd (run v siteCred srv) = Ok tt ->
   requests (fst (run v siteCred srv)) = planned v siteCred srv).
Proof.
  rewrite run_fst, run_snd. unfold planned, listed.
  rewrite session_block_step. cbv zeta.
  destruct (status_code (srv 0%nat (login_request siteCred)) =? 200)%Z.
  2:{ split; [exists 1%nat; reflexivity | intros E; discriminate E]. }
  destruct (status_code (srv 1%nat (find_request v)) =? 200)%Z.
  2:{ split; [exists 2%nat; reflexivity | intros E; discriminate E]. }
  destruct (text (srv 1%nat (find_request v))) as [retData |].
  2:{ split; [exists 2%nat; reflexivity | intros E; discriminate E]. }
  destruct (debrisIds_of v retData) as [ids | ex | ].
  2:{ split; [exists 2%nat; reflexivity | intros E; discriminate E]. }
  2:{ split; [exists 2%nat; reflexivity | intros E; discriminate E]. }
  destruct (fetch_loop_requests v srv ids 2 3 1) as [[j Hj] Hdone].
  destruct (fetch_loop v srv 2 ids 3 1) as [t' r]. cbn [fst snd] in *.
  cbn [requests]. split.
  - exists (S (S j)). cbn [firstn]. rewrite Hj.
    now rewrite <- firstn_map.
  - intros E. destruct r as [a | ex | ]; try discriminate E.
    now rewrite (Hdone a eq_refl).
Qed.

Lemma tracking_completes : snd (run Tolerant operator tracking) = Ok tt.
Proof.
  rewrite run_snd, session_block_step. cbv zeta.
  change (status_code (tracking 0%nat (login_request operator))) with 200%Z.
  change (status_code (tracking 1%nat (find_request Tolerant))) with 200%Z.
  change (text (tracking 1%nat (find_request Tolerant)))
    with (Some [candidate "25544"]).
  change (200 =? 200)%Z with true. cbv iota.
  change (debrisIds_of Tolerant [candidate "25544"]) with (@Ok (list string) ["25544"]).
  cbv iota.
  assert (Ha : answered Tolerant tracking 2 ["25544"]).
  { cbn [answered]. repeat split. discriminate. }
  assert (Hr : rows_of Tolerant (fetched Tolerant tracking 2 ["25544"])
               = Ok [station_row]).
  { change (fetched Tolerant tracking 2 ["25544"]) with [station].
    cbn [rows_of]. rewrite station_row_of. reflexivity. }
  destruct (fetch_loop_completes Tolerant tracking ["25544"] 2 3 1
              [station_row] Ha Hr) as [t [m' ->]].
  reflexivity.
Qed.

Lemma requests_follow_the_listing_witness :
  snd (run Tolerant operator tracking) = Ok tt /\
  requests (fst (run Tolerant operator tracking))
  = planned Tolerant operator tracking.
Proof.
  split; [exact tracking_completes |].
  exact (proj2 (requests_follow_the_listing Tolerant operator tracking)
           tracking_completes).
Defined.

(** ** The rows of a run *)

Lemma cell_writes_body_end (t : list event) :
  cell_writes
    (t ++ [SessionExit; SessionClose; WorkbookClose;
           Printed "✅ Completed collecting debris data"])
  = cell_writes t.
Proof. rewrite cell_writes_app. cbn [cell_writes]. apply app_nil_r. Qed.

(** X13: a run that completes has written, below the header rows, one
    line for every record received for the listed identifiers, starting
    at row 3 and in the order of the listing and of the responses;
    nothing else is written. *)
Theorem run_rows (v : variant) (siteCred : credentials) (srv : service) :
  snd (run v siteCred srv) = Ok tt ->
  exists rows,
    rows_of v (fetched v srv 2 (listed v srv)) = Ok rows /\
    length rows = length (fetched v srv 2 (listed v srv)) /\
    cell_writes (fst (run v siteCred srv)) = lines 3 rows.
Proof.
  unfold run, listed. rewrite session_block_step. cbv zeta.
  destruct (status_code (srv 0%nat (login_request siteCred)) =? 200)%Z;
    [| discriminate].
  destruct (status_code (srv 1%nat (find_request v)) =? 200)%Z;
    [| discriminate].
  destruct (text (srv 1%nat (find_request v))) as [retData |];
    [| discriminate].
  destruct (debrisIds_of v retData) as [ids | ex | ];
    [| discriminate | discriminate].
  destruct (fetch_loop v srv 2 ids 3 1) as [t' [[w m] | ex | ]] eqn:El;
    [| discriminate | discriminate].
  intros _. cbn [fst].
  destruct (fetch_loop_rows v srv ids 2 3 1 t' w m El)
    as [rows [Hr [Hl [Hc _]]]].
  exists rows. split; [exact Hr |]. split; [exact Hl |].
  rewrite cell_writes_body_end. cbn [cell_writes]. exact Hc.
Qed.

Lemma run_rows_witness :
  snd (run Tolerant operator tracking) = Ok tt /\
  exists rows,
    rows_of Tolerant (fetched Tolerant tracking 2 (listed Tolerant tracking))
    = Ok rows /\
    length rows
    = length (fetched Tolerant tracking 2 (listed Tolerant tracking)) /\
    cell_writes (fst (run Tolerant operator tracking)) = lines 3 rows.
Proof.
  split; [exact tracking_completes |].
  exact (run_rows Tolerant operator tracking tracking_completes).
Defined.

(** ** A derivation that fails *)

(** X14: the seven raw cells of a line are written before the
    derivation, so a record whose derivation fails (a zero mean motion
    in the strict script, a negative one in either) leaves exactly
    these seven cells of its line behind and ends the processing. *)
Theorem failed_derivation_leaves_raw_cells (v : variant) (w : nat)
    (id name epoch : string) (rev inc ecc mmoti : R)
    (raan argp ma : option R) (n : Z) :
  py_int id = Ok n ->
  (forall d, derive v mmoti ecc <> Ok d) ->
  let e := element_with id name epoch rev inc ecc mmoti raan argp ma in
  cell_writes (fst (process_record v w e))
  = raw_cells w n name epoch rev inc ecc mmoti /\
  snd (process_record v w e)
  = match derive v mmoti ecc with
    | Raise ex => Raise ex
    | _ => NonReal
    end.
Proof.
  intros Hn Hd e. subst e. unfold element_with, derive in *.
  destruct v;
    unfold process_record, process_record_strict, process_record_tolerant;
    cbn [NORAD_CAT_ID OBJECT_NAME EPOCH REV_AT_EPOCH INCLINATION
         ECCENTRICITY MEAN_MOTION RA_OF_ASC_NODE ARG_OF_PERICENTER
         MEAN_ANOMALY get catalog_number_or_zero];
    step_record; rewrite Hn; step_record.
  - destruct (derive_strict mmoti ecc) as [d | ex | ]; step_record;
      [exfalso; now apply (Hd d) | split; reflexivity | split; reflexivity].
  - destruct (derive_tolerant mmoti ecc) as [d | ex | ]; step_record;
      [exfalso; now apply (Hd d) | split; reflexivity | split; reflexivity].
Qed.

Lemma failed_derivation_leaves_raw_cells_witness :
  cell_writes (fst (process_record Strict 3 stalled))
  = raw_cells 3 90001 "DEB" "2024-01-01T00:00:00" 0 51.6 0.0003 0 /\
  snd (process_record Strict 3 stalled)
  = match derive Strict 0 0.0003 with
    | Raise ex => Raise ex
    | _ => NonReal
    end.
Proof.
  apply (failed_derivation_leaves_raw_cells Strict 3 "90001" "DEB"
           "2024-01-01T00:00:00" 0 51.6 0.0003 0 (Some 0) (Some 0) (Some 0)
           90001).
  - reflexivity.
  - intros d. rewrite derive_strict_zero. discriminate.
Defined.

(** ** Where the cells go *)

Lemma positions_app (t1 t2 : list event) :
  positions (t1 ++ t2) = (positions t1 ++ positions t2)%list.
Proof. unfold positions. now rewrite cell_writes_app, map_app. Qed.

Lemma StronglySorted_app {A : Type} (R : A -> A -> Prop) (l1 l2 : list A) :
  StronglySorted R l1 ->
  StronglySorted R l2 ->
  (forall a b, In a l1 -> In b l2 -> R a b) ->
  StronglySorted R (l1 ++ l2).
Proof.
  intros H1 H2 H. induction l1 as [| x l1 IH]; [exact H2 |].
  cbn [app]. inversion_clear H1 as [| ? ? Hs Hf]. constructor.
  - apply IH; [exact Hs |]. intros a b Ha Hb. apply H; [now right | exact Hb].
  - apply Forall_app. split; [exact Hf |].
    apply Forall_forall. intros b Hb. apply H; [now left | exact Hb].
Qed.

Lemma StronglySorted_before_NoDup (l : list (nat * nat)) :
  StronglySorted before l -> NoDup l.
Proof.
  induction 1 as [| p l Hs IH Hf]; constructor; [| exact IH].
  intros Hin. rewrite Forall_forall in Hf. specialize (Hf p Hin).
  unfold before in Hf. lia.
Qed.

(** The columns 0 .. n-1 of one row are in order. *)
Lemma row_prefix_sorted (w n c : nat) :
  StronglySorted before (map (fun col => (w, col)) (seq c n)).
Proof.
  revert c. induction n as [| n IH]; intros c; cbn [seq map];
    constructor; [apply IH |].
  apply Forall_forall. intros p Hp. apply in_map_iff in Hp as [col [<- Hc]].
  apply in_seq in Hc. right. cbn [fst snd]. lia.
Qed.

Ltac prefix_exit :=
  solve [ exists 0%nat; split; [lia | reflexivity]
        | exists 3%nat; split; [lia | reflexivity]
        | exists 4%nat; split; [lia | reflexivity]
        | exists 7%nat; split; [lia | reflexivity]
        | exists 10%nat; split; [lia | reflexivity]
        | exists 11%nat; split; [lia | reflexivity]
        | exists 12%nat; split; [lia | reflexivity]
        | exists 16%nat; split; [lia | reflexivity] ].

(** Whatever happens to a record, the cells written for it are the
    first columns of its line, from column 0 on without a gap. *)
Lemma process_record_positions (v : variant) (w : nat) (e : element) :
  exists n, (n <= 16)%nat /\
            positions (fst (process_record v w e))
            = map (fun col => (w, col)) (seq 0 n).
Proof.
  destruct e as [id name epoch rev inc ecc mm raan argp ma].
  destruct v;
    unfold process_record, process_record_strict, process_record_tolerant;
    cbn [NORAD_CAT_ID OBJECT_NAME EPOCH REV_AT_EPOCH INCLINATION
         ECCENTRICITY MEAN_MOTION RA_OF_ASC_NODE ARG_OF_PERICENTER
         MEAN_ANOMALY].
  - destruct name as [name |]; step_record; [| prefix_exit].
    destruct epoch as [epoch |]; step_record; [| prefix_exit].
    destruct mm as [mm |]; step_record; [| prefix_exit].
    destruct ecc as [ecc |]; step_record; [| prefix_exit].
    destruct id as [id |]; step_record; [| prefix_exit].
    destruct (py_int id) as [n | ex | ]; step_record;
      [| prefix_exit | prefix_exit].
    destruct rev as [rev |]; step_record; [| prefix_exit].
    destruct inc as [inc |]; step_record; [| prefix_exit].
    destruct (derive_strict mm ecc) as [d | ex | ]; step_record;
      [| prefix_exit | prefix_exit].
    destruct raan as [raan |]; step_record; [| prefix_exit].
    destruct argp as [argp |]; step_record; [| prefix_exit].
    destruct ma as [ma |]; step_record; prefix_exit.
  - step_record.
    destruct (catalog_number_or_zero id) as [n | ex | ]; step_record;
      [| prefix_exit | prefix_exit].
    destruct (derive_tolerant (get mm 0) (get ecc 0)) as [d | ex | ];
      step_record; prefix_exit.
Qed.

Lemma process_record_next (v : variant) (w : nat) (e : element) (w' : nat) :
  snd (process_record v w e) = Ok w' -> w' = (w + 1)%nat.
Proof.
  intros E. pose proof (process_record_spec v w e) as H.
  destruct (row_of v e) as [row | ex | ].
  - destruct H as [t [Et _]]. rewrite Et in E. cbn [snd] in E.
    now injection E as <-.
  - rewrite H in E. discriminate E.
  - rewrite H in E. discriminate E.
Qed.

Lemma row_prefix_tidy (w n : nat) :
  (n <= 16)%nat ->
  Forall (fun p => fst p = w /\ (snd p < 16)%nat)
    (map (fun col => (w, col)) (seq 0 n)).
Proof.
  intros Hn. apply Forall_forall. intros p Hp.
  apply in_map_iff in Hp as [col [<- Hc]]. apply in_seq in Hc.
  cbn [fst snd]. lia.
Qed.

Lemma records_loop_tidy (v : variant) (recs : list element) :
  forall w,
    tidy w (fst (records_loop v w recs)) /\
    (forall w', snd (records_loop v w recs) = Ok w' ->
                (w <= w')%nat /\
                Forall (fun p => (fst p < w')%nat)
                  (positions (fst (records_loop v w recs)))).
Proof.
  induction recs as [| e rest IH]; intros w; cbn [records_loop].
  - split; [split; constructor |].
    intros w' E. injection E as <-. split; [lia | constructor].
  - destruct (process_record_positions v w e) as [n [Hn Hp]].
    pose proof (process_record_next v w e) as Hnext.
    pose proof (row_prefix_tidy w n Hn) as Hrow.
    pose proof (row_prefix_sorted w n 0) as Hsort.
    rewrite <- Hp in Hrow, Hsort.
    destruct (process_record v w e) as [t1 [w1 | ex | ]];
      cbn [fst snd bind] in *.
    + specialize (Hnext w1 eq_refl). subst w1.
      destruct (IH (w + 1)%nat) as [[Hs2 Hf2] Hok].
      destruct (records_loop v (w + 1) rest) as [t2 r2]. cbn [fst snd] in *.
      unfold tidy. rewrite !positions_app.
      rewrite Forall_forall in Hrow, Hf2.
      split; [split |].
      * apply StronglySorted_app; [exact Hsort | exact Hs2 |].
        intros a b Ha Hb. left.
        destruct (Hrow a Ha) as [-> _]. destruct (Hf2 b Hb). lia.
      * apply Forall_app. split; apply Forall_forall; intros p Hin.
        -- destruct (Hrow p Hin). lia.
        -- destruct (Hf2 p Hin). lia.
      * intros w' E. destruct (Hok w' E) as [Hle Hlt].
        split; [lia |]. rewrite Forall_forall in Hlt.
        apply Forall_app. split; apply Forall_forall; intros p Hin.
        -- destruct (Hrow p Hin). lia.
        -- now apply Hlt.
    + split; [split; [exact Hsort |] | intros ? E; discriminate E].
      eapply Forall_impl; [| exact Hrow]. cbn beta. intros p [-> Hc]. lia.
    + split; [split; [exact Hsort |] | intros ? E; discriminate E].
      eapply Forall_impl; [| exact Hrow]. cbn beta. intros p [-> Hc]. lia.
Qed.

Lemma positions_turn (req : request) (tr t : list event) :
  positions (Send req :: tr ++ t) = (positions tr ++ positions t)%list.
Proof.
  change (Send req :: tr ++ t) with ([Send req] ++ (tr ++ t))%list.
  now rewrite !positions_app.
Qed.

Lemma tidy_join (w w1 : nat) (tr t : list event) :
  tidy w tr ->
  (w <= w1)%nat ->
  Forall (fun p => (fst p < w1)%nat) (positions tr) ->
  tidy w1 t ->
  StronglySorted before (positions tr ++ positions t) /\
  Forall (fun p => (w <= fst p)%nat /\ (snd p < 16)%nat)
    (positions tr ++ positions t).
Proof.
  intros [Hs1 Hf1] Hle Hlt [Hs2 Hf2].
  rewrite Forall_forall in Hlt, Hf2. split.
  - apply StronglySorted_app; [exact Hs1 | exact Hs2 |].
    intros a b Ha Hb. left. specialize (Hlt a Ha). destruct (Hf2 b Hb). lia.
  - apply Forall_app. split; [exact Hf1 |].
    apply Forall_forall. intros p Hin. destruct (Hf2 p Hin). lia.
Qed.

Lemma fetch_loop_tidy (v : variant) (srv : service) (ids : list string) :
  forall k w m, tidy w (fst (fetch_loop v srv k ids w m)).
Proof.
  induction ids as [| s rest IH]; intros k w m.
  - cbn [fetch_loop ret fst]. split; constructor.
  - rewrite fetch_loop_step. cbv zeta.
    set (req := GET (omm_url v s)).
    destruct (status_code (srv k req) =? 200)%Z;
      [| split; constructor].
    destruct (json_loads (srv k req)) as [retData | e | ];
      [| split; constructor | split; constructor].
    destruct (records_loop_tidy v retData w) as [Ht Hok].
    destruct (records_loop v w retData) as [tr [w1 | e | ]];
      cbn [fst snd] in *.
    + destruct (Hok w1 eq_refl) as [Hle Hlt].
      destruct (18 <? m + 1)%nat.
      * specialize (IH (S k) w1 1%nat).
        destruct (fetch_loop v srv (S k) rest w1 1) as [t' r].
        cbn [fst] in *. unfold tidy. rewrite positions_turn.
        change (positions
                  (Printed "Sleeping 60 seconds to avoid rate limits..."
                     :: Sleep 60 :: t'))
          with (positions t').
        now apply (tidy_join w w1).
      * specialize (IH (S k) w1 (m + 1)%nat).
        destruct (fetch_loop v srv (S k) rest w1 (m + 1)) as [t' r].
        cbn [fst] in *. unfold tidy. rewrite positions_turn.
        now apply (tidy_join w w1).
    + exact Ht.
    + exact Ht.
Qed.

Lemma positions_run (v : variant) (siteCred : credentials) (srv : service) :
  positions (fst (run v siteCred srv))
  = positions (fst (session_block v siteCred srv)).
Proof.
  unfold run.
  destruct (session_block v siteCred srv) as [t [[] | ex | ]]; cbn [fst];
    rewrite positions_app; apply app_nil_r.
Qed.

(** X15: in every run, completed or not, the worksheet cells are
    written in row-major order from row 3 on and within columns 0 to
    15: no cell is written twice and the title and header rows above
    are never touched. *)
Theorem cells_written_once (v : variant) (siteCred : credentials)
    (srv : service) :
  StronglySorted before (positions (fst (run v siteCred srv))) /\
  Forall (fun p => (3 <= fst p)%nat /\ (snd p < 16)%nat)
    (positions (fst (run v siteCred srv))) /\
  NoDup (positions (fst (run v siteCred srv))).
Proof.
  assert (H : tidy 3 (fst (session_block v siteCred srv))).
  { rewrite session_block_step. cbv zeta.
    destruct (status_code (srv 0%nat (login_request siteCred)) =? 200)%Z;
      [| split; constructor].
    destruct (status_code (srv 1%nat (find_request v)) =? 200)%Z;
      [| split; constructor].
    destruct (text (srv 1%nat (find_request v))) as [retData |];
      [| split; constructor].
    destruct (debrisIds_of v retData) as [ids | ex | ];
      [| split; constructor | split; constructor].
    pose proof (fetch_loop_tidy v srv ids 2 3 1) as Ht.
    destruct (fetch_loop v srv 2 ids 3 1) as [t' r]. exact Ht. }
  rewrite positions_run. destruct H as [Hs Hf].
  split; [exact Hs |]. split; [exact Hf |].
  now apply StronglySorted_before_NoDup.
Qed.

(** ** The pauses of a completed loop *)

Lemma pauses_app (l1 l2 : list pace) :
  pauses (l1 ++ l2) = (pauses l1 + pauses l2)%nat.
Proof.
  induction l1 as [| p l1 IH]; [reflexivity |].
  destruct p; cbn [app pauses]; rewrite IH; reflexivity.
Qed.

Lemma pauses_requests (r : nat) : pauses (repeat Request r) = 0%nat.
Proof. induction r as [| r IH]; [reflexivity | exact IH]. Qed.

Lemma pauses_cycles (c r : nat) : pauses (cycles c r) = c.
Proof.
  unfold cycles. rewrite pauses_app, pauses_requests, Nat.add_0_r.
  induction c as [| c IH]; [reflexivity |].
  cbn [repeat concat]. rewrite !pauses_app, pauses_requests, IH.
  reflexivity.
Qed.

Lemma last_of_app {A : Type} (l1 l2 : list A) (d : A) :
  l2 <> [] -> last (l1 ++ l2) d = last l2 d.
Proof.
  intros H. induction l1 as [| x l1 IH]; [reflexivity |].
  cbn [app]. rewrite <- IH.
  destruct (l1 ++ l2)%list as [| y l] eqn:E; [| reflexivity].
  apply app_eq_nil in E as [_ E]. contradiction.
Qed.

Lemma cycles_end_in_pause (c : nat) :
  (0 < c)%nat -> last (cycles c 0) Request = Pause cooldown.
Proof.
  intros Hc. unfold cycles. cbn [repeat]. rewrite app_nil_r.
  destruct c as [| c]; [lia |]. clear Hc.
  set (block := (repeat Request K ++ [Pause cooldown])%list).
  induction c as [| c IH].
  - cbn [repeat concat]. rewrite app_nil_r. apply last_last.
  - change (repeat block (S (S c))) with (block :: repeat block (S c)).
    cbn [concat]. rewrite last_of_app; [exact IH |].
    cbn [repeat concat]. intros E. apply app_eq_nil in E as [E _].
    unfold block in E. apply app_eq_nil in E as [_ E]. discriminate E.
Qed.

(** X17: a fetch loop that runs to its end over [n] identifiers has
    paused exactly [n / 18] times; when [n] is a positive multiple of
    18 the last pause comes after the last request, although nothing
    follows it. *)
Theorem pauses_of_a_completed_loop (v : variant) (srv : service)
    (k w : nat) (ids : list string) (w' m' : nat) :
  snd (fetch_loop v srv k ids w 1) = Ok (w', m') ->
  pauses (pacing (fst (fetch_loop v srv k ids w 1))) = (length ids / K)%nat /\
  ((length ids mod K = 0)%nat -> ids <> [] ->
   last (pacing (fst (fetch_loop v srv k ids w 1))) Request
   = Pause cooldown).
Proof.
  intros E.
  assert (H1 : (1 <= 1 <= K)%nat) by (unfold K; lia).
  destruct (fetch_loop_paced v srv ids k w 1 H1) as [_ Hdone].
  destruct (Hdone w' m' E) as [Hp _].
  change (1 - 1)%nat with 0%nat in Hp.
  rewrite Hp, schedule_div_mod. split; [apply pauses_cycles |].
  intros Hmod Hne. rewrite Hmod. apply cycles_end_in_pause.
  destruct ids as [| s rest]; [contradiction |].
  pose proof (Nat.div_mod_eq (length (s :: rest)) K) as Hd.
  rewrite Hmod in Hd. cbn [length] in *.
  destruct (S (length rest) / K)%nat; lia.
Qed.

Lemma pauses_of_a_completed_loop_witness :
  snd eighteen_fetches = Ok (3, 1)%nat /\
  pauses (pacing (fst eighteen_fetches)) = (18 / K)%nat /\
  last (pacing (fst eighteen_fetches)) Request = Pause cooldown.
Proof.
  assert (E : snd eighteen_fetches = Ok (3, 1)%nat)
    by (vm_compute; reflexivity).
  destruct (pauses_of_a_completed_loop Tolerant (empty_catalogue 18) 2 3
              (repeat "25544" 18) 3 1 E) as [Hp Hl].
  split; [exact E |]. split; [exact Hp |].
  apply Hl; [reflexivity | discriminate].
Defined.

(** ** Doubles: a mean motion that underflows *)

Lemma zero_is_not_nan (x : PrimFloat.float) :
  PrimFloat.eqb x PrimFloat.zero = true -> PrimFloat.is_nan x = false.
Proof.
  unfold PrimFloat.is_nan. rewrite !FloatAxioms.eqb_spec.
  change (FloatOps.Prim2SF PrimFloat.zero) with (SpecFloat.S754_zero false).
  destruct (FloatOps.Prim2SF x) as [s | s | | s m e];
    unfold SpecFloat.SFeqb, SpecFloat.SFcompare.
  - reflexivity.
  - destruct s; discriminate.
  - discriminate.
  - destruct s; discriminate.
Qed.

Lemma zero_is_not_infinite (x : PrimFloat.float) :
  PrimFloat.eqb x PrimFloat.zero = true -> PrimFloat.is_infinity x = false.
Proof.
  unfold PrimFloat.is_infinity.
  rewrite !FloatAxioms.eqb_spec, FloatAxioms.abs_spec.
  change (FloatOps.Prim2SF PrimFloat.zero) with (SpecFloat.S754_zero false).
  change (FloatOps.Prim2SF PrimFloat.infinity)
    with (SpecFloat.S754_infinity false).
  destruct (FloatOps.Prim2SF x) as [s | s | | s m e];
    unfold SpecFloat.SFeqb, SpecFloat.SFcompare, SpecFloat.SFabs.
  - reflexivity.
  - destruct s; discriminate.
  - discriminate.
  - destruct s; discriminate.
Qed.

Lemma sma_expr_underflow (libm_pow : PrimFloat.float -> PrimFloat.float
                                     -> option PrimFloat.float)
    (GM13 m : PrimFloat.float) :
  PrimFloat.eqb (PrimFloat.mul Binary64.TPI86 m) PrimFloat.zero = true ->
  Binary64.sma_expr libm_pow GM13 m = Binary64.ZeroDivision.
Proof.
  intros H. unfold Binary64.sma_expr, Binary64.float_pow.
  pose proof (zero_is_not_nan _ H) as Hn.
  pose proof (zero_is_not_infinite _ H) as Hi.
  unfold PrimFloat.zero in H. rewrite Hn, Hi, H.
  reflexivity.
Qed.

(** X18: on doubles, whenever the product [TPI86 * mmoti] rounds to
    zero (a mean motion of 0.0 or -0.0, or one of magnitude below about
    3.4e-320, of either sign) the strict script raises
    [ZeroDivisionError]; the tolerant script returns its sentinels when
    the mean motion itself is a zero and raises [ZeroDivisionError]
    otherwise.  The C library's [pow] is not reached. *)
Theorem underflowing_mean_motion
    (libm_pow : PrimFloat.float -> PrimFloat.float -> option PrimFloat.float)
    (GM13 m ecc : PrimFloat.float) :
  PrimFloat.eqb (PrimFloat.mul Binary64.TPI86 m) PrimFloat.zero = true ->
  Binary64.derive libm_pow GM13 Strict m ecc = Binary64.ZeroDivision /\
  Binary64.derive libm_pow GM13 Tolerant m ecc
  = if Binary64.truthy m then Binary64.ZeroDivision
    else Binary64.Value (Binary64.sentinels ecc).
Proof.
  intros H. pose proof (sma_expr_underflow libm_pow GM13 m H) as Hs.
  unfold Binary64.derive, Binary64.derive_strict, Binary64.derive_tolerant.
  rewrite Hs. split; [reflexivity |].
  destruct (Binary64.truthy m); reflexivity.
Qed.

Lemma underflowing_mean_motion_witness :
  Binary64.derive Binary64.pow_out_of_range Binary64.GM13_sample Strict
    Binary64.tiny Binary64.tiny
  = Binary64.ZeroDivision /\
  Binary64.derive Binary64.pow_out_of_range Binary64.GM13_sample Tolerant
    Binary64.tiny Binary64.tiny
  = Binary64.ZeroDivision.
Proof.
  exact (underflowing_mean_motion Binary64.pow_out_of_range
           Binary64.GM13_sample Binary64.tiny Binary64.tiny eq_refl).
Defined.
